(** * Request-scoped structured logging: a model of [internal/logger]

    The Go package [logger] wraps the standard library's [log/slog].  This
    development embeds, shallowly:

    - the part of [context] the package touches (value contexts, keyed by
      interface values that compare by dynamic type and value);
    - the part of [log/slog] the package drives: levels, attributes, the
      options record with its [ReplaceAttr] hook, the common part of the
      JSON and text handlers, and the logger methods [With], [Enabled] and
      [LogAttrs];
    - the effects the package performs, as a state-and-exit monad over a
      [World]: the heap of allocated loggers, standard output, the clock, the
      identifier generator, the running goroutine's stack trace and process
      termination;
    - the package itself: [New], [WithRequestID], [GetRequestID], [Error],
      [Fatal], [WithComponent], [WithOperation] and [TimeTrack];
    - the package [config], which reads the environment the logger is built
      from: [Load], [validate], [GetDSN], [getEnv], [parseInt], [parseInt64],
      [parseDuration] and [parseLogLevel], over models of [strconv.Atoi],
      [strconv.ParseInt], [strings.ToLower], [strings.Join] and the verb
      [%d] of [fmt].

    Attribute values are the scalar kinds; group-valued attributes are not
    modelled.  An output line is kept structured (its encoding and the
    ordered key/value fields the handler wrote) instead of being rendered to
    bytes. *)

From Stdlib Require Import ZArith String Ascii List Lia.
From stdpp Require Import base list strings gmap.

Local Open Scope string_scope.
Local Open Scope Z_scope.
Local Open Scope list_scope.

(** ** [context] *)

Module context.

(** A Go interface value ([any]): its dynamic type and the value in it.
    Two interface values are equal when both agree. *)
Inductive Any :=
| nil_any
| string_any (s : string)
| ctxKey_any (s : string)
| int_any (n : Z)
| named_any (type_name : string) (s : string).

#[global] Instance Any_eq_dec : EqDecision Any.
Proof. solve_decision. Defined.

(** [context.Background()] and [context.WithValue(parent, key, val)]. *)
Inductive Context :=
| Background
| WithValue (parent : Context) (key val : Any).

(** [ctx.Value(key)]: the innermost binding of [key], nil when there is
    none. *)
Fixpoint Value (ctx : Context) (key : Any) : Any :=
  match ctx with
  | Background => nil_any
  | WithValue parent k v => if decide (k = key) then v else Value parent key
  end.

(** The type assertion [v.(string)] in its comma-ok form. *)
Definition assert_string (v : Any) : string * bool :=
  match v with
  | string_any s => (s, true)
  | _ => ("", false)
  end.

End context.

(** ** [log/slog]: pure part *)

Module slog.

Definition Level := Z.
Definition LevelDebug : Level := -4.
Definition LevelInfo : Level := 0.
Definition LevelWarn : Level := 4.
Definition LevelError : Level := 8.

(** Instants and durations in nanoseconds; instant [0] is the zero
    [time.Time]. *)
Definition Time := Z.
Definition Duration := Z.
Definition IsZero (t : Time) : bool := t =? 0.

Inductive Value :=
| AnyNil
| StringValue (s : string)
| Int64Value (n : Z)
| BoolValue (b : bool)
| DurationValue (d : Duration)
| TimeValue (t : Time)
| LevelValue (l : Level).

Record Attr := { Key : string; Val : Value }.

#[global] Instance Value_eq_dec : EqDecision Value.
Proof. solve_decision. Defined.
#[global] Instance Attr_eq_dec : EqDecision Attr.
Proof. solve_decision. Defined.

Definition String (key value : string) : Attr :=
  {| Key := key; Val := StringValue value |}.
Definition Duration_attr (key : string) (d : Duration) : Attr :=
  {| Key := key; Val := DurationValue d |}.
Definition Time_attr (key : string) (t : Time) : Attr :=
  {| Key := key; Val := TimeValue t |}.
Definition Any_level (key : string) (l : Level) : Attr :=
  {| Key := key; Val := LevelValue l |}.

(** [slog.Attr{}] *)
Definition zero_Attr : Attr := {| Key := ""; Val := AnyNil |}.

Definition isEmpty (a : Attr) : bool :=
  (Key a =? "")%string &&
  match Val a with AnyNil => true | _ => false end.

Definition TimeKey := "time".
Definition LevelKey := "level".
Definition MessageKey := "msg".

Record Record_ := {
  rTime : Time;
  rLevel : Level;
  rMessage : string;
  rAttrs : list Attr
}.

Record HandlerOptions := {
  opt_Level : Level;
  opt_ReplaceAttr : list string -> Attr -> Attr
}.

Inductive Encoding := JSON | Text.

(** The state shared by [JSONHandler] and [TextHandler]: which of the two
    it is, its options, and the attributes already formatted by
    [WithAttrs]. *)
Record Handler := {
  encoding : Encoding;
  opts : HandlerOptions;
  preformattedAttrs : list Attr
}.

Definition NewJSONHandler (o : HandlerOptions) : Handler :=
  {| encoding := JSON; opts := o; preformattedAttrs := [] |}.
Definition NewTextHandler (o : HandlerOptions) : Handler :=
  {| encoding := Text; opts := o; preformattedAttrs := [] |}.

(** [Handler.Enabled]: the built-in handlers ignore the context. *)
Definition enabled (h : Handler) (ctx : context.Context) (l : Level) : bool :=
  opt_Level (opts h) <=? l.

(** Writing one attribute: the attribute goes through [ReplaceAttr] (no
    group is open), and is dropped when the result is the zero [Attr]. *)
Definition appendAttr (h : Handler) (a : Attr) : list Attr :=
  let a' := opt_ReplaceAttr (opts h) [] a in
  if isEmpty a' then [] else [a'].

Definition appendAttrs (h : Handler) (l : list Attr) : list Attr :=
  flat_map (appendAttr h) l.

Definition WithAttrs (h : Handler) (l : list Attr) : Handler :=
  {| encoding := encoding h;
     opts := opts h;
     preformattedAttrs := preformattedAttrs h ++ appendAttrs h l |}.

(** One line of output: the encoding it is written in and its fields in
    the order written. *)
Record Line := { line_encoding : Encoding; fields : list Attr }.

(** [Handler.Handle]: the built-in fields (the time only when it is not the
    zero instant), then the preformatted attributes, then the record's. *)
Definition built_ins (h : Handler) (r : Record_) : list Attr :=
  (if IsZero (rTime r) then [] else appendAttr h (Time_attr TimeKey (rTime r)))
  ++ appendAttr h (Any_level LevelKey (rLevel r))
  ++ appendAttr h (String MessageKey (rMessage r)).

Definition Handle (h : Handler) (r : Record_) : Line :=
  {| line_encoding := encoding h;
     fields := built_ins h r ++ preformattedAttrs h ++ appendAttrs h (rAttrs r) |}.

Definition has_key (k : string) (l : list Attr) : bool :=
  existsb (fun a => (Key a =? k)%string) l.

End slog.

(** ** Effects *)

(** A [*Logger] is an address in the heap of allocated loggers.  The cell
    holds the logger's handler: [Logger] only embeds a [*slog.Logger], whose
    single field of interest is its handler, and none of the three is ever
    written after it is built. *)
Definition ptr := nat.

(** The state of the process the package acts on.  The clock, the
    identifier generator and the stack trace are given from outside: the
    world holds what each successive read will yield and how many reads
    there were.  [stack_calls] thus counts the calls of [runtime.Stack]. *)
Record World := {
  heap : list slog.Handler;
  stdout : list slog.Line;
  clock : nat -> slog.Time;
  clock_reads : nat;
  uuids : nat -> string;
  uuid_calls : nat;
  traces : nat -> string;
  stack_calls : nat
}.

(** How a call ends: it returns, the process exits, or the goroutine
    panics (here: a nil or dangling [*Logger] is dereferenced). *)
Inductive Outcome (A : Type) :=
| Returned (a : A) (w : World)
| Exited (code : Z) (w : World)
| Panicked (w : World).
Arguments Returned {A} a w.
Arguments Exited {A} code w.
Arguments Panicked {A} w.

Definition M (A : Type) : Type := World -> Outcome A.

#[global] Instance M_ret : MRet M := fun A a w => Returned a w.
#[global] Instance M_bind : MBind M := fun A B f m w =>
  match m w with
  | Returned a w' => f a w'
  | Exited code w' => Exited code w'
  | Panicked w' => Panicked w'
  end.

Definition final_world {A} (o : Outcome A) : World :=
  match o with
  | Returned _ w => w
  | Exited _ w => w
  | Panicked w => w
  end.

Definition set_heap (w : World) (x : list slog.Handler) : World :=
  {| heap := x; stdout := stdout w; clock := clock w;
     clock_reads := clock_reads w; uuids := uuids w;
     uuid_calls := uuid_calls w; traces := traces w;
     stack_calls := stack_calls w |}.
Definition set_stdout (w : World) (x : list slog.Line) : World :=
  {| heap := heap w; stdout := x; clock := clock w;
     clock_reads := clock_reads w; uuids := uuids w;
     uuid_calls := uuid_calls w; traces := traces w;
     stack_calls := stack_calls w |}.
Definition set_clock_reads (w : World) (x : nat) : World :=
  {| heap := heap w; stdout := stdout w; clock := clock w;
     clock_reads := x; uuids := uuids w;
     uuid_calls := uuid_calls w; traces := traces w;
     stack_calls := stack_calls w |}.
Definition set_uuid_calls (w : World) (x : nat) : World :=
  {| heap := heap w; stdout := stdout w; clock := clock w;
     clock_reads := clock_reads w; uuids := uuids w;
     uuid_calls := x; traces := traces w;
     stack_calls := stack_calls w |}.
Definition set_stack_calls (w : World) (x : nat) : World :=
  {| heap := heap w; stdout := stdout w; clock := clock w;
     clock_reads := clock_reads w; uuids := uuids w;
     uuid_calls := uuid_calls w; traces := traces w;
     stack_calls := x |}.

(** [&T{...}]: a fresh cell at the end of the heap. *)
Definition alloc (h : slog.Handler) : M ptr :=
  fun w => Returned (length (heap w)) (set_heap w (heap w ++ [h])).

(** [*p]; dereferencing an address that holds no logger panics. *)
Definition load (p : ptr) : M slog.Handler :=
  fun w => match heap w !! p with
           | Some h => Returned h w
           | None => Panicked w
           end.

(** A write of one line to [os.Stdout]; a failed write is swallowed by
    [slog], so the model lets every write succeed. *)
Definition write_stdout (l : slog.Line) : M unit :=
  fun w => Returned tt (set_stdout w (stdout w ++ [l])).

Module time.
(** [time.Now()] *)
Definition Now : M slog.Time :=
  fun w => Returned (clock w (clock_reads w))
                    (set_clock_reads w (S (clock_reads w))).
(** A [Duration] is an [int64] count of nanoseconds. *)
Definition minDuration : slog.Duration := - 2 ^ 63.
Definition maxDuration : slog.Duration := 2 ^ 63 - 1.

(** The low 64 bits of [z], signed: [int64] arithmetic wraps. *)
Definition int64 (z : Z) : Z := (z + 2 ^ 63) mod 2 ^ 64 - 2 ^ 63.

(** [t.Sub(u)]: the difference computed in [int64]; when adding it to [u]
    does not give [t] back, the difference is out of range and the result
    is held at the nearer end. *)
Definition Sub (t u : slog.Time) : slog.Duration :=
  let d := int64 (t - u) in
  if u + d =? t then d
  else if t <? u then minDuration
  else maxDuration.

(** [time.Since(start)], that is [time.Now().Sub(start)] *)
Definition Since (start : slog.Time) : M slog.Duration :=
  now ← Now; mret (Sub now start).
End time.

Module uuid.
(** [uuid.New().String()] *)
Definition New_String : M string :=
  fun w => Returned (uuids w (uuid_calls w))
                    (set_uuid_calls w (S (uuid_calls w))).
End uuid.

Module runtime.
(** [buf := make([]byte, size); string(buf[:runtime.Stack(buf, false)])]:
    the calling goroutine's trace, cut to the buffer's size. *)
Definition Stack (size : nat) : M string :=
  fun w => Returned (substring 0 size (traces w (stack_calls w)))
                    (set_stack_calls w (S (stack_calls w))).
End runtime.

Module os.
(** [os.Exit(code)] *)
Definition Exit {A} (code : Z) : M A := fun w => Exited code w.
End os.

(** ** [log/slog]: the [Logger] methods *)

Module slog_Logger.
Import slog.

(** [l.With(attrs...)]: a logger over [WithAttrs] of the handler; the
    receiver itself when there is nothing to add. *)
Definition With (h : Handler) (attrs : list Attr) : Handler :=
  match attrs with
  | [] => h
  | _ => WithAttrs h attrs
  end.

(** [l.Enabled(ctx, level)] *)
Definition Enabled (l : ptr) (ctx : context.Context) (level : Level) : M bool :=
  h ← load l; mret (enabled h ctx level).

(** [l.LogAttrs(ctx, level, msg, attrs...)]: nothing when the level is
    disabled; otherwise a record stamped with [time.Now()] is handled, and
    the handler writes its line. *)
Definition LogAttrs (l : ptr) (ctx : context.Context) (level : Level)
    (msg : string) (attrs : list Attr) : M unit :=
  on ← Enabled l ctx level;
  if negb on then mret tt
  else
    now ← time.Now;
    h ← load l;
    write_stdout (Handle h {| rTime := now; rLevel := level;
                              rMessage := msg; rAttrs := attrs |}).
End slog_Logger.

(** ** The package [logger] *)

Module logger.
Import context slog.

(** [const RequestIDKey ctxKey = "request_id"] *)
Definition RequestIDKey : Any := ctxKey_any "request_id".

(** A Go [error]: nil, or a value whose [Error()] is the given text. *)
Definition error := option string.

Definition ReplaceAttr (env : string) (groups : list string) (a : Attr) : Attr :=
  if (env =? "development")%string && (Key a =? "time")%string
  then zero_Attr
  else a.

Definition New_handler (env : string) (level : Level) : Handler :=
  let opts := {| opt_Level := level; opt_ReplaceAttr := ReplaceAttr env |} in
  if (env =? "production")%string
  then NewJSONHandler opts
  else NewTextHandler opts.

Definition New (env : string) (level : Level) : M ptr :=
  alloc (New_handler env level).

Definition WithRequestID (l : ptr) (ctx : Context) : M (Context * ptr) :=
  requestID ← uuid.New_String;
  let ctx := WithValue ctx RequestIDKey (string_any requestID) in
  h ← load l;
  l' ← alloc (slog_Logger.With h [String "request_id" requestID]);
  mret (ctx, l').

Definition GetRequestID (ctx : Context) : string :=
  let '(id, ok) := assert_string (context.Value ctx RequestIDKey) in
  if ok then id else "".

Definition Error (l : ptr) (msg : string) (err : error) (attrs : list Attr) : M unit :=
  attrs ←
    match err with
    | Some text =>
        let attrs := attrs ++ [String "error" text] in
        debug ← slog_Logger.Enabled l Background LevelDebug;
        if (debug : bool) then
          stack ← runtime.Stack 4096;
          mret (attrs ++ [String "stack" stack])
        else mret attrs
    | None => mret attrs
    end;
  slog_Logger.LogAttrs l Background LevelError msg attrs.

Definition Fatal (l : ptr) (msg : string) (err : error) (attrs : list Attr) : M unit :=
  Error l msg err attrs;; os.Exit 1.

Definition WithComponent (l : ptr) (component : string) : M ptr :=
  h ← load l;
  alloc (slog_Logger.With h [String "component" component]).

Definition WithOperation (l : ptr) (operation : string) : M ptr :=
  h ← load l;
  alloc (slog_Logger.With h [String "operation" operation]).

Definition TimeTrack (l : ptr) (start : Time) (name : string) (attrs : list Attr) : M unit :=
  elapsed ← time.Since start;
  let attrs := attrs ++ [Duration_attr "duration" elapsed] in
  slog_Logger.LogAttrs l Background LevelDebug (name +:+ " completed") attrs.

End logger.

(** ** Vocabulary of the statements *)

Section vocabulary.
Import context slog logger.

(** The world after an enabled record went through handler [h]. *)
Definition logged (h : Handler) (level : Level) (msg : string)
    (attrs : list Attr) (w : World) : World :=
  set_stdout (set_clock_reads w (S (clock_reads w)))
    (stdout w ++ [Handle h {| rTime := clock w (clock_reads w);
                              rLevel := level; rMessage := msg;
                              rAttrs := attrs |}]).

(** What [Error] appends to the caller's attributes in world [w]. *)
Definition appended (h : Handler) (err : error) (w : World) : list Attr :=
  match err with
  | None => []
  | Some text =>
      String "error" text ::
      (if enabled h Background LevelDebug
       then [String "stack" (substring 0 4096 (traces w (stack_calls w)))]
       else [])
  end.

(** The world in which [Error] reaches its [LogAttrs] call. *)
Definition after_capture (h : Handler) (err : error) (w : World) : World :=
  match err with
  | None => w
  | Some _ =>
      if enabled h Background LevelDebug
      then set_stack_calls w (S (stack_calls w))
      else w
  end.

(** The handlers a logger of this package can hold: the one [New] builds
    and those [With] derives from it. *)
Inductive built (env : string) (level : Level) : Handler -> Prop :=
| built_New : built env level (New_handler env level)
| built_With h attrs :
    built env level h -> built env level (slog_Logger.With h attrs).

(** The calls through which a [*Logger] writes: its own three, and
    [LogAttrs], promoted from the embedded [*slog.Logger]. *)
Inductive Call :=
| call_Error (msg : string) (err : error) (attrs : list Attr)
| call_Fatal (msg : string) (err : error) (attrs : list Attr)
| call_TimeTrack (start : Time) (name : string) (attrs : list Attr)
| call_LogAttrs (ctx : Context) (level : Level) (msg : string)
    (attrs : list Attr).

Definition run_call (l : ptr) (c : Call) : M unit :=
  match c with
  | call_Error msg err attrs => Error l msg err attrs
  | call_Fatal msg err attrs => Fatal l msg err attrs
  | call_TimeTrack start name attrs => TimeTrack l start name attrs
  | call_LogAttrs ctx level msg attrs =>
      slog_Logger.LogAttrs l ctx level msg attrs
  end.

(** The lines a call writes when its receiver holds handler [h], read off
    the world it starts in. *)
Definition emitted (h : Handler) (c : Call) (w : World) : list Line :=
  match c with
  | call_Error msg err attrs | call_Fatal msg err attrs =>
      if enabled h Background LevelError
      then [Handle h {| rTime := clock w (clock_reads w);
                        rLevel := LevelError; rMessage := msg;
                        rAttrs := attrs ++ appended h err w |}]
      else []
  | call_TimeTrack start name attrs =>
      if enabled h Background LevelDebug
      then [Handle h {| rTime := clock w (S (clock_reads w));
                        rLevel := LevelDebug;
                        rMessage := name +:+ " completed";
                        rAttrs := attrs ++ [Duration_attr "duration"
                                    (time.Sub (clock w (clock_reads w)) start)] |}]
      else []
  | call_LogAttrs ctx level msg attrs =>
      if enabled h ctx level
      then [Handle h {| rTime := clock w (clock_reads w);
                        rLevel := level; rMessage := msg;
                        rAttrs := attrs |}]
      else []
  end.

(** The three derivation operations, as data, and their runs. *)
Inductive Derivation :=
| by_Component (name : string)
| by_Operation (name : string)
| by_RequestID (ctx : Context).

Definition derive (l : ptr) (d : Derivation) : M ptr :=
  match d with
  | by_Component name => WithComponent l name
  | by_Operation name => WithOperation l name
  | by_RequestID ctx => r ← WithRequestID l ctx; mret (snd r)
  end.

Fixpoint derive_all (l : ptr) (ds : list Derivation) : M ptr :=
  match ds with
  | [] => mret l
  | d :: ds => l' ← derive l d; derive_all l' ds
  end.

(** The attribute a derivation attaches; [calls] identifiers were drawn
    from [ids] so far. *)
Definition attached (d : Derivation) (ids : nat -> string) (calls : nat) : Attr :=
  match d with
  | by_Component name => String "component" name
  | by_Operation name => String "operation" name
  | by_RequestID _ => String "request_id" (ids calls)
  end.

Definition draws (d : Derivation) : nat :=
  match d with
  | by_RequestID _ => 1%nat
  | _ => 0%nat
  end.

Fixpoint attached_all (ds : list Derivation) (ids : nat -> string)
    (calls : nat) : list Attr :=
  match ds with
  | [] => []
  | d :: ds => attached d ids calls :: attached_all ds ids (draws d + calls)
  end.

(** Whether [key] is bound anywhere along the chain of [ctx]. *)
Fixpoint binds (ctx : Context) (key : Any) : bool :=
  match ctx with
  | Background => false
  | WithValue parent k _ => bool_decide (k = key) || binds parent key
  end.

(** The handler a derivation builds from [h], and the world it leaves: the
    new logger in a fresh cell, the identifiers it drew consumed. *)
Definition derived (h : Handler) (d : Derivation) (w : World) : Handler :=
  slog_Logger.With h [attached d (uuids w) (uuid_calls w)].

Definition after_derive (h : Handler) (d : Derivation) (w : World) : World :=
  set_heap (set_uuid_calls w (draws d + uuid_calls w)%nat)
           (heap w ++ [derived h d w]).

(** Two lines with the same attributes: the same encoding, and fields that
    differ in order only. *)
Definition same_attributes (x y : Line) : Prop :=
  line_encoding x = line_encoding y /\ fields x ≡ₚ fields y.

(** Two worlds that differ in their heaps at most. *)
Definition same_io (w w' : World) : Prop :=
  stdout w' = stdout w /\ clock w' = clock w /\
  clock_reads w' = clock_reads w /\ uuids w' = uuids w /\
  uuid_calls w' = uuid_calls w /\
  traces w' = traces w /\ stack_calls w' = stack_calls w.

(** A request: the caller holds context [ctx], derives the request's logger
    from it and reports through that logger. *)
Definition in_request (l : ptr) (ctx : Context) (report : ptr -> M unit) : M unit :=
  r ← WithRequestID l ctx; report (snd r).

End vocabulary.

(** ** A concrete world and small runs *)

Module sample.
Import slog.

(** An empty process: nothing allocated or written; the clock reads
    [1000 + 50 n] at its [n]-th read. *)
Definition w0 : World :=
  {| heap := []; stdout := [];
     clock := fun n => 1000 + 50 * Z.of_nat n; clock_reads := 0;
     uuids := fun n => match n with
                       | O => "6ba7b810-9dad-11d1-80b4-00c04fd430c8"
                       | _ => "6ba7b811-9dad-11d1-80b4-00c04fd430c8"
                       end;
     uuid_calls := 0;
     traces := fun _ => "goroutine 1 [running]:";
     stack_calls := 0 |}.

Definition lines {A} (o : Outcome A) : list Line := stdout (final_world o).

(** The process once [New env level] has run: the base logger is at
    address [0]. *)
Definition started (env : string) (level : Level) : World :=
  final_world (logger.New env level w0).
End sample.

(** ** The standard library the package [config] calls *)

Module strings.

Definition byte (c : ascii) : Z := Z.of_N (N_of_ascii c).

Definition isASCII (s : string) : bool :=
  forallb (fun c => byte c <? 128) (list_ascii_of_string s).

Definition lower_byte (c : ascii) : ascii :=
  if (65 <=? byte c) && (byte c <=? 90)
  then ascii_of_N (N_of_ascii c + 32)
  else c.

Fixpoint lower_bytes (s : string) : string :=
  match s with
  | EmptyString => EmptyString
  | String c s' => String (lower_byte c) (lower_bytes s')
  end.

(** [strings.ToLower]: a string of ASCII bytes is lowered byte by byte;
    any other goes through [strings.Map(unicode.ToLower, s)], which is
    taken as given ([unicode_lower]). *)
Definition ToLower (unicode_lower : string -> string) (s : string) : string :=
  if isASCII s then lower_bytes s else unicode_lower s.

(** [strings.Join(elems, sep)] *)
Fixpoint Join (elems : list string) (sep : string) : string :=
  match elems with
  | [] => ""
  | [x] => x
  | x :: rest => x +:+ sep +:+ Join rest sep
  end.

End strings.

Module strconv.
Import strings.

(** The two causes a [*NumError] wraps. *)
Inductive NumError := ErrSyntax | ErrRange.

Definition maxUint64 : Z := 2 ^ 64 - 1.

(** The loop of [ParseUint(s, 10, 64)] from accumulator [n].  A byte that is
    no decimal digit is a syntax error (a letter stands for a digit of at
    least 10, the base; an underscore is let through for base 0 only).
    [uint64] arithmetic wraps, as the overflow test expects. *)
Fixpoint ParseUint_from (s : string) (n : Z) : Z * option NumError :=
  match s with
  | EmptyString => (n, None)
  | String c s' =>
      if (48 <=? byte c) && (byte c <=? 57) then
        let d := byte c - 48 in
        if maxUint64 / 10 + 1 <=? n then (maxUint64, Some ErrRange)
        else
          let n := n * 10 in
          let n1 := (n + d) mod 2 ^ 64 in
          if (n1 <? n) || (maxUint64 <? n1) then (maxUint64, Some ErrRange)
          else ParseUint_from s' n1
      else (0, Some ErrSyntax)
  end.

(** [strconv.ParseUint(s, 10, 64)] *)
Definition ParseUint (s : string) : Z * option NumError :=
  match s with
  | EmptyString => (0, Some ErrSyntax)
  | _ => ParseUint_from s 0
  end.

(** [strconv.ParseInt(s, 10, 64)]; with an [int] of 64 bits this is
    [ParseInt(s, 10, 0)] as well. *)
Definition ParseInt (s : string) : Z * option NumError :=
  match s with
  | EmptyString => (0, Some ErrSyntax)
  | String c rest =>
      let '(neg, digits) :=
        if Ascii.eqb c "+" then (false, rest)
        else if Ascii.eqb c "-" then (true, rest)
        else (false, s) in
      let '(un, err) := ParseUint digits in
      match err with
      | Some ErrSyntax => (0, Some ErrSyntax)
      | _ =>
          let cutoff := 2 ^ 63 in
          if negb neg && (cutoff <=? un) then (cutoff - 1, Some ErrRange)
          else if neg && (cutoff <? un) then (- cutoff, Some ErrRange)
          else (if neg then - un else un, None)
      end
  end.

(** The digit loop of [Atoi]'s fast path; [ch -= '0'] wraps in a byte. *)
Fixpoint Atoi_digits (s : string) (n : Z) : Z * option NumError :=
  match s with
  | EmptyString => (n, None)
  | String c s' =>
      let ch := (byte c - 48) mod 256 in
      if 9 <? ch then (0, Some ErrSyntax)
      else Atoi_digits s' (n * 10 + ch)
  end.

(** [strconv.Atoi(s)], [int] being 64 bits: a fast path for strings of
    fewer than 19 bytes, [ParseInt] for the others. *)
Definition Atoi (s : string) : Z * option NumError :=
  let sLen := String.length s in
  if (0 <? sLen)%nat && (sLen <? 19)%nat then
    match s with
    | EmptyString => (0, Some ErrSyntax)
    | String c rest =>
        let signed := Ascii.eqb c "-" || Ascii.eqb c "+" in
        let digits := if signed then rest else s in
        if signed && (String.length digits <? 1)%nat then (0, Some ErrSyntax)
        else
          match Atoi_digits digits 0 with
          | (n, None) => (if Ascii.eqb c "-" then - n else n, None)
          | (_, Some e) => (0, Some e)
          end
    end
  else ParseInt s.

End strconv.

Module fmt.
Import strings.

(** The digits of [u], most significant first, put before [acc]: the loop
    of [fmt]'s integer formatting in base 10. *)
Fixpoint digits_before (fuel : nat) (u : Z) (acc : string) : string :=
  match fuel with
  | O => acc
  | S fuel =>
      let next := u / 10 in
      let acc := String (ascii_of_N (Z.to_N (48 + u - next * 10))) acc in
      if u <? 10 then acc else digits_before fuel next acc
  end.

(** The verb [%d] on an integer. *)
Definition d (z : Z) : string :=
  let u := Z.abs z in
  let digits := digits_before (S (Z.to_nat (Z.log2 u))) u "" in
  if z <? 0 then String "-" digits else digits.

End fmt.

(** ** The package [config] *)

Module config.
Import strings strconv.

(** [time.Second], [time.Minute], [time.Hour], in nanoseconds. *)
Definition Second : slog.Duration := 1000000000.
Definition Minute : slog.Duration := 60 * Second.
Definition Hour : slog.Duration := 60 * Minute.

Record ServerConfig := {
  Port : string;
  Environment : string;
  LogLevel : slog.Level;
  ReadTimeout : slog.Duration;
  WriteTimeout : slog.Duration;
  IdleTimeout : slog.Duration
}.

(** The field [Port] of [DatabaseConfig] is [DBPort] here, the name being
    taken by [ServerConfig]. *)
Record DatabaseConfig := {
  Host : string;
  DBPort : Z;
  User : string;
  Password : string;
  DBName : string;
  MaxConns : Z;
  MinConns : Z;
  MaxConnLifetime : slog.Duration;
  MaxConnIdleTime : slog.Duration;
  HealthCheckPeriod : slog.Duration
}.

Record AWSConfig := {
  Region : string;
  AccessKey : string;
  SecretKey : string;
  S3Bucket : string;
  S3BaseURL : string
}.

Record AppConfig := {
  MaxFileSize : Z;
  AllowedFileTypes : list string
}.

Record Config := {
  Server : ServerConfig;
  Database : DatabaseConfig;
  AWS : AWSConfig;
  App : AppConfig
}.

(** The conversion [int32(i)] of an [int]: the low 32 bits, signed. *)
Definition int32 (i : Z) : Z := (i + 2 ^ 31) mod 2 ^ 32 - 2 ^ 31.

(** The process environment: the variables that are set, with their
    values. *)
Definition Environ := gmap string string.

Definition getEnv (environ : Environ) (key defaultValue : string) : string :=
  match environ !! key with
  | Some value => value
  | None => defaultValue
  end.

Definition parseInt (value : string) : Z :=
  match Atoi value with
  | (i, None) => i
  | (_, Some _) => 0
  end.

Definition parseInt64 (value : string) : Z :=
  match ParseInt value with
  | (i, None) => i
  | (_, Some _) => 0
  end.

Definition validate (c : Config) : option string :=
  let missing := [] in
  let missing := if (Host (Database c) =? "")%string
                 then missing ++ ["DB_HOST is required"] else missing in
  let missing := if (User (Database c) =? "")%string
                 then missing ++ ["DB_USER is required"] else missing in
  let missing := if (Password (Database c) =? "")%string
                 then missing ++ ["DB_Password is required"] else missing in
  let missing := if (DBName (Database c) =? "")%string
                 then missing ++ ["DB_NAME is required"] else missing in
  let missing := if (Region (AWS c) =? "")%string
                 then missing ++ ["AWS_REGION is required"] else missing in
  let missing := if (S3Bucket (AWS c) =? "")%string
                 then missing ++ ["S3_BUCKET is required"] else missing in
  if (0 <? length missing)%nat
  then Some ("missing required environment variables "
             +:+ Join missing ", ")
  else None.

Definition GetDSN (c : Config) : string :=
  "postgres://" +:+ User (Database c) +:+ ":" +:+ Password (Database c)
  +:+ "@" +:+ Host (Database c) +:+ ":" +:+ fmt.d (DBPort (Database c))
  +:+ "/" +:+ DBName (Database c) +:+ "?sslmode=disable".

Section externals.

(** What the model takes as given: [strings.Map(unicode.ToLower, s)] on a
    string that is not ASCII, [time.ParseDuration], and [godotenv.Load],
    which may set variables from a [.env] file and says whether it found
    one. *)
Variable unicode_lower : string -> string.
Variable ParseDuration : string -> slog.Duration * option string.
Variable godotenv_Load : Environ -> Environ * option string.

Definition parseDuration (value : string) (defaultValue : slog.Duration)
    : slog.Duration :=
  match ParseDuration value with
  | (d, None) => d
  | (_, Some _) => defaultValue
  end.

Definition parseLogLevel (level : string) : slog.Level :=
  let lowered := ToLower unicode_lower level in
  if (lowered =? "debug")%string then slog.LevelDebug
  else if (lowered =? "info")%string then slog.LevelInfo
  else if (lowered =? "warn")%string then slog.LevelWarn
  else if (lowered =? "error")%string then slog.LevelError
  else slog.LevelInfo.

(** [Load]: what [log.Println] printed, and the two results. *)
Definition Load (environ : Environ)
    : list string * (option Config * option string) :=
  let '(environ, err) := godotenv_Load environ in
  let printed := match err with
                 | Some _ => ["No .env file found"]
                 | None => []
                 end in
  let cfg :=
    {| Server :=
         {| Port := getEnv environ "SERVER_PORT" "8080";
            Environment := getEnv environ "ENVIRONMENT" "development";
            LogLevel := parseLogLevel (getEnv environ "LOG_LEVEL" "info");
            ReadTimeout :=
              parseDuration (getEnv environ "READ_TIMEOUT" "15s") (15 * Second);
            WriteTimeout :=
              parseDuration (getEnv environ "WRITE_TIMEOUT" "15s") (15 * Second);
            IdleTimeout :=
              parseDuration (getEnv environ "IDLE_TIMEOUT" "60s") (60 * Second) |};
       Database :=
         {| Host := getEnv environ "DB_HOST" "localhost";
            DBPort := parseInt (getEnv environ "DB_PORT" "5432");
            User := getEnv environ "DB_USER" "postgres";
            Password := getEnv environ "DB_PASSWORD" "postgres";
            DBName := getEnv environ "DB_NAME" "fileupload";
            MaxConns := int32 (parseInt (getEnv environ "DB_MAX_CONNS" "10"));
            MinConns := int32 (parseInt (getEnv environ "DB_MIN_CONNS" "2"));
            MaxConnLifetime :=
              parseDuration (getEnv environ "DB_MAX_CONN_LIFETIME" "1h") Hour;
            MaxConnIdleTime :=
              parseDuration (getEnv environ "DB_MAX_CONN_IDLE_TIME" "30m")
                            (30 * Minute);
            HealthCheckPeriod :=
              parseDuration (getEnv environ "DB_HEALTH_CHECK_PERIOD" "1m")
                            Minute |};
       AWS :=
         {| Region := getEnv environ "AWS_REGION" "us-east-1";
            AccessKey := getEnv environ "AWS_ACCESS_KEY" "";
            SecretKey := getEnv environ "AWS_SECRET_KEY" "";
            S3Bucket := getEnv environ "S3_BUCKET" "";
            S3BaseURL := getEnv environ "S3_BASE_URL" "" |};
       App :=
         {| MaxFileSize := parseInt64 (getEnv environ "MAX_FILE_SIZE" "10_485_760");
            AllowedFileTypes :=
              ["image/jpeg"; "image/jpg"; "image/png"; "image/webp";
               "image/gif"; "application/pdf"; "text/plain"] |} |} in
  match validate cfg with
  | Some err => (printed, (None, Some ("config validation failed: " +:+ err)))
  | None => (printed, (Some cfg, None))
  end.

End externals.

End config.

(** ** Vocabulary of the statements on [config] *)

Module numeral.
Import strings.

Definition is_digit (c : ascii) : bool := (48 <=? byte c) && (byte c <=? 57).

(** The number a string of decimal digits writes, after the digits that
    gave [n]; nothing when a byte is no digit. *)
Fixpoint digits_value (s : string) (n : Z) : option Z :=
  match s with
  | EmptyString => Some n
  | String c s' =>
      if is_digit c then digits_value s' (n * 10 + (byte c - 48)) else None
  end.

(** The integer a string writes in decimal: an optional sign, then at least
    one digit, and nothing else. *)
Definition decimal (s : string) : option Z :=
  match s with
  | EmptyString => None
  | String c rest =>
      if Ascii.eqb c "-" then
        match rest with
        | EmptyString => None
        | _ => Z.opp <$> digits_value rest 0
        end
      else if Ascii.eqb c "+" then
        match rest with
        | EmptyString => None
        | _ => digits_value rest 0
        end
      else digits_value s 0
  end.

Definition in_int64 (z : Z) : bool := (- 2 ^ 63 <=? z) && (z <? 2 ^ 63).

(** The [int] a string stands for when it writes one in decimal that fits
    64 bits, and [0] otherwise. *)
Definition int_of (s : string) : Z :=
  match decimal s with
  | Some z => if in_int64 z then z else 0
  | None => 0
  end.

(** What a caller that turns every error into [0] gets. *)
Definition or_zero (r : Z * option strconv.NumError) : Z :=
  match r with
  | (i, None) => i
  | (_, Some _) => 0
  end.

End numeral.

(** ** Further vocabulary *)

Section more_vocabulary.
Import slog config.

(** Whether a handler built by [New env] writes attribute [a]: it drops the
    zero [Attr], and in development what is keyed ["time"]. *)
Definition kept (env : string) (a : Attr) : bool :=
  negb ((env =? "development")%string && (Key a =? "time")%string)
  && negb (isEmpty a).

(** The fields [validate] requires, each with the message for its
    absence, in the order it tests them. *)
Definition required (c : Config) : list (string * string) :=
  [ (Host (Database c), "DB_HOST is required");
    (User (Database c), "DB_USER is required");
    (Password (Database c), "DB_Password is required");
    (DBName (Database c), "DB_NAME is required");
    (Region (AWS c), "AWS_REGION is required");
    (S3Bucket (AWS c), "S3_BUCKET is required") ].

Definition missing_messages (c : Config) : list string :=
  snd <$> List.filter (fun fm => (fst fm =? "")%string) (required c).

(** Whether byte [b] occurs in [s]. *)
Definition has_byte (b : ascii) (s : string) : Prop :=
  In b (list_ascii_of_string s).

(** [c] with other credentials and host. *)
Definition with_login (c : Config) (user password host : string) : Config :=
  {| Server := Server c;
     Database :=
       {| Host := host;
          DBPort := DBPort (Database c);
          User := user;
          Password := password;
          DBName := DBName (Database c);
          MaxConns := MaxConns (Database c);
          MinConns := MinConns (Database c);
          MaxConnLifetime := MaxConnLifetime (Database c);
          MaxConnIdleTime := MaxConnIdleTime (Database c);
          HealthCheckPeriod := HealthCheckPeriod (Database c) |};
     AWS := AWS c;
     App := App c |}.

End more_vocabulary.

Module sample_env.

(** No [.env] file: the process environment is left as it is. *)
Definition no_dotenv (environ : config.Environ)
    : config.Environ * option string :=
  (environ, Some "open .env: no such file or directory").

(** A stand-in for [time.ParseDuration] that reads whole seconds written
    as ["15s"] or ["60s"] and refuses everything else. *)
Definition seconds_only (s : string) : slog.Duration * option string :=
  if (s =? "15s")%string then (15 * config.Second, None)
  else if (s =? "60s")%string then (60 * config.Second, None)
  else (0, Some "time: invalid duration").

(** A configuration with the defaults of a local database. *)
Definition local : config.Config :=
  {| config.Server :=
       {| config.Port := "8080"; config.Environment := "development";
          config.LogLevel := slog.LevelInfo;
          config.ReadTimeout := 15 * config.Second;
          config.WriteTimeout := 15 * config.Second;
          config.IdleTimeout := 60 * config.Second |};
     config.Database :=
       {| config.Host := "localhost"; config.DBPort := 5432;
          config.User := "postgres"; config.Password := "postgres";
          config.DBName := "fileupload";
          config.MaxConns := 10; config.MinConns := 2;
          config.MaxConnLifetime := config.Hour;
          config.MaxConnIdleTime := 30 * config.Minute;
          config.HealthCheckPeriod := config.Minute |};
     config.AWS :=
       {| config.Region := "us-east-1"; config.AccessKey := "";
          config.SecretKey := ""; config.S3Bucket := "uploads";
          config.S3BaseURL := "" |};
     config.App :=
       {| config.MaxFileSize := 0; config.AllowedFileTypes := [] |} |}.

(** An environment that sets the bucket, and a malformed port. *)
Definition bucket_only : config.Environ :=
  <["S3_BUCKET" := "uploads"]> (<["DB_PORT" := "54 32"]> ∅).

End sample_env.

(** ** Stepping the monad *)

Lemma bind_Returned {A B} (m : M A) (f : A -> M B) w a w' :
  m w = Returned a w' -> (m ≫= f) w = f a w'.
Proof. intros E. unfold mbind, M_bind. now rewrite E. Qed.

Lemma bind_Panicked {A B} (m : M A) (f : A -> M B) w w' :
  m w = Panicked w' -> (m ≫= f) w = Panicked w'.
Proof. intros E. unfold mbind, M_bind. now rewrite E. Qed.

Lemma load_Some l h w : heap w !! l = Some h -> load l w = Returned h w.
Proof. intros E. unfold load. now rewrite E. Qed.

Lemma load_None l w : heap w !! l = None -> load l w = Panicked w.
Proof. intros E. unfold load. now rewrite E. Qed.

Ltac step :=
  first
    [ erewrite bind_Returned by (first [ apply load_Some; eassumption
                                       | reflexivity ])
    | erewrite bind_Panicked by (apply load_None; eassumption) ].

Create HintDb logger discriminated.

(** *** The emitters, unfolded, on a live receiver *)

Section live_receiver.
Import context slog logger.

Variables (l : ptr) (h : Handler).

Lemma Enabled_run ctx level w :
  heap w !! l = Some h ->
  slog_Logger.Enabled l ctx level w = Returned (enabled h ctx level) w.
Proof. intros E. unfold slog_Logger.Enabled. now step. Qed.

Lemma LogAttrs_run ctx level msg attrs w :
  heap w !! l = Some h ->
  slog_Logger.LogAttrs l ctx level msg attrs w =
  Returned tt (if enabled h ctx level then logged h level msg attrs w else w).
Proof.
  intros E. unfold slog_Logger.LogAttrs.
  erewrite bind_Returned by (apply Enabled_run; eassumption).
  destruct (enabled h ctx level); simpl; [|reflexivity].
  unfold mbind, M_bind, time.Now, load. simpl. now rewrite E.
Qed.

Lemma heap_after_capture err w : heap (after_capture h err w) = heap w.
Proof.
  unfold after_capture. destruct err; [|reflexivity].
  now destruct (enabled _ _ _).
Qed.

Section in_a_world.
Variable w : World.
Hypothesis live : heap w !! l = Some h.

Lemma Error_run msg err attrs :
  Error l msg err attrs w =
  slog_Logger.LogAttrs l Background LevelError msg
    (attrs ++ appended h err w) (after_capture h err w).
Proof.
  unfold Error, appended, after_capture.
  destruct err as [text|].
  - unfold mbind at 1. unfold M_bind.
    erewrite bind_Returned by (apply Enabled_run; exact live).
    destruct (enabled h Background LevelDebug); simpl.
    + unfold mbind, M_bind, runtime.Stack, mret, M_ret. simpl.
      now rewrite <- app_assoc.
    + reflexivity.
  - unfold mbind at 1. unfold M_bind, mret, M_ret.
    now rewrite app_nil_r.
Qed.

Lemma TimeTrack_run start name attrs :
  TimeTrack l start name attrs w =
  slog_Logger.LogAttrs l Background LevelDebug (name +:+ " completed")
    (attrs ++ [Duration_attr "duration" (time.Sub (clock w (clock_reads w)) start)])
    (set_clock_reads w (S (clock_reads w))).
Proof. reflexivity. Qed.

Lemma LogAttrs_stdout ctx level msg attrs :
  stdout (final_world (slog_Logger.LogAttrs l ctx level msg attrs w)) =
  stdout w ++ (if enabled h ctx level
               then [Handle h {| rTime := clock w (clock_reads w);
                                 rLevel := level; rMessage := msg;
                                 rAttrs := attrs |}]
               else []).
Proof.
  rewrite (LogAttrs_run _ _ _ _ w live).
  destruct (enabled h ctx level); simpl; [reflexivity|].
  now rewrite app_nil_r.
Qed.

Lemma Error_returns msg err attrs :
  exists w', Error l msg err attrs w = Returned tt w'.
Proof.
  rewrite Error_run.
  erewrite LogAttrs_run by (rewrite heap_after_capture; exact live).
  eauto.
Qed.

Lemma Error_stdout msg err attrs :
  stdout (final_world (Error l msg err attrs w)) =
  stdout w ++ emitted h (call_Error msg err attrs) w.
Proof.
  rewrite Error_run, (LogAttrs_run _ _ _ _ (after_capture h err w))
    by (rewrite heap_after_capture; exact live).
  unfold emitted, logged, after_capture.
  destruct (enabled h Background LevelError); destruct err; simpl;
    rewrite ?app_nil_r; try reflexivity;
    now destruct (enabled h Background LevelDebug).
Qed.

End in_a_world.
End live_receiver.

(** *** A receiver that is nil or dangling *)

Section dead_receiver.
Import context slog logger.

Variables (l : ptr) (w : World).
Hypothesis dead : heap w !! l = None.

Lemma Enabled_nil_deref ctx level :
  slog_Logger.Enabled l ctx level w = Panicked w.
Proof. unfold slog_Logger.Enabled. now step. Qed.

Lemma LogAttrs_nil_deref ctx level msg attrs :
  slog_Logger.LogAttrs l ctx level msg attrs w = Panicked w.
Proof.
  unfold slog_Logger.LogAttrs.
  erewrite bind_Panicked; [reflexivity|]. now apply Enabled_nil_deref.
Qed.

Lemma Error_nil_deref msg err attrs : Error l msg err attrs w = Panicked w.
Proof.
  unfold Error. destruct err as [text|].
  - unfold mbind at 1. unfold M_bind.
    erewrite bind_Panicked; [reflexivity|]. now apply Enabled_nil_deref.
  - unfold mbind at 1. unfold M_bind, mret, M_ret.
    now apply LogAttrs_nil_deref.
Qed.

End dead_receiver.

(** ** Handlers built by this package *)

Section built_handlers.
Import context slog logger.

Lemma built_opts env level h :
  built env level h ->
  opts h = {| opt_Level := level; opt_ReplaceAttr := ReplaceAttr env |}.
Proof.
  induction 1 as [|h attrs _ IH].
  - unfold New_handler. now destruct (env =? "production")%string.
  - now destruct attrs.
Qed.

Lemma built_level env level h : built env level h -> opt_Level (opts h) = level.
Proof. intros B. now rewrite (built_opts _ _ _ B). Qed.

Lemma built_encoding env level h :
  built env level h ->
  encoding h = if (env =? "production")%string then JSON else Text.
Proof.
  induction 1 as [|h attrs _ IH].
  - unfold New_handler. now destruct (env =? "production")%string.
  - now destruct attrs.
Qed.

Lemma appendAttr_built env level h a :
  built env level h ->
  appendAttr h a =
  if (env =? "development")%string && (Key a =? "time")%string then []
  else if isEmpty a then [] else [a].
Proof.
  intros B. unfold appendAttr. rewrite (built_opts _ _ _ B). simpl.
  unfold ReplaceAttr.
  now destruct ((env =? "development")%string && (Key a =? "time")%string).
Qed.

Lemma has_key_app k l1 l2 :
  has_key k (l1 ++ l2) = has_key k l1 || has_key k l2.
Proof. apply existsb_app. Qed.

(** An attribute keyed [k], other than ["time"] and not the zero [Attr], is
    written as it is. *)
Lemma appendAttr_kept env level h a :
  built env level h ->
  (Key a =? "time")%string = false -> isEmpty a = false ->
  appendAttr h a = [a].
Proof.
  intros B Hk He. rewrite (appendAttr_built _ _ _ _ B), Hk, He.
  now rewrite andb_false_r.
Qed.

Lemma appendAttr_development level h a :
  built "development" level h -> has_key "time" (appendAttr h a) = false.
Proof.
  intros B. rewrite (appendAttr_built _ _ _ _ B). simpl.
  destruct (Key a =? "time")%string eqn:Hk; [reflexivity|].
  destruct (isEmpty a); [reflexivity|]. simpl. now rewrite Hk.
Qed.

Lemma appendAttrs_development level h l :
  built "development" level h -> has_key "time" (appendAttrs h l) = false.
Proof.
  intros B. induction l as [|a l IH]; [reflexivity|].
  unfold appendAttrs in *. simpl. rewrite has_key_app, IH.
  now rewrite (appendAttr_development _ _ _ B).
Qed.

Lemma preformatted_development level h :
  built "development" level h -> has_key "time" (preformattedAttrs h) = false.
Proof.
  intros B. remember "development" as env eqn:Henv.
  induction B as [|h attrs B IH].
  - unfold New_handler. now destruct (env =? "production")%string.
  - destruct attrs as [|a attrs]; [exact IH|]. subst env.
    change (preformattedAttrs (slog_Logger.With h (a :: attrs)))
      with (preformattedAttrs h ++ appendAttrs h (a :: attrs)).
    now rewrite has_key_app, IH, (appendAttrs_development _ _ _ B).
Qed.

Lemma line_development level h r :
  built "development" level h -> has_key "time" (fields (Handle h r)) = false.
Proof.
  intros B. unfold Handle, built_ins. simpl fields.
  rewrite !has_key_app, (preformatted_development _ _ B),
    (appendAttrs_development _ _ _ B), !(appendAttr_development _ _ _ B).
  now destruct (IsZero (rTime r)); rewrite ?(appendAttr_development _ _ _ B).
Qed.

Lemma line_has_time env level h r :
  built env level h -> env <> "development" -> IsZero (rTime r) = false ->
  has_key "time" (fields (Handle h r)) = true.
Proof.
  intros B Hne Hz. unfold Handle, built_ins. simpl fields. rewrite Hz.
  rewrite (appendAttr_built _ _ _ (Time_attr TimeKey (rTime r)) B).
  apply String.eqb_neq in Hne. rewrite Hne. reflexivity.
Qed.

Lemma line_encoding_built env level h r :
  built env level h ->
  line_encoding (Handle h r) = if (env =? "production")%string then JSON else Text.
Proof. intros B. simpl. now apply built_encoding with level. Qed.

End built_handlers.

(** ** The calls that emit *)

Section emitters.
Import context slog logger.

(** [Fatal] ends where [Error] ends, with the process gone. *)
Lemma Fatal_run l msg err attrs w :
  Fatal l msg err attrs w =
  match Error l msg err attrs w with
  | Returned _ w' => Exited 1 w'
  | Exited code w' => Exited code w'
  | Panicked w' => Panicked w'
  end.
Proof. reflexivity. Qed.

Lemma Fatal_never_returns l msg err attrs w a w' :
  Fatal l msg err attrs w <> Returned a w'.
Proof. rewrite Fatal_run. now destruct (Error l msg err attrs w). Qed.

(** Every line a call writes is the one [emitted] names. *)
Lemma run_call_stdout l c w h :
  heap w !! l = Some h ->
  stdout (final_world (run_call l c w)) = stdout w ++ emitted h c w.
Proof.
  intros E.
  destruct c as [msg err attrs|msg err attrs|start name attrs|ctx level msg attrs];
    simpl run_call.
  - now apply Error_stdout.
  - rewrite Fatal_run.
    destruct (Error_returns l h w E msg err attrs) as [w' Hw'].
    rewrite Hw'. change (emitted h (call_Fatal msg err attrs) w)
      with (emitted h (call_Error msg err attrs) w).
    rewrite <- (Error_stdout l h w E), Hw'. reflexivity.
  - rewrite TimeTrack_run.
    now rewrite (LogAttrs_stdout l h) by exact E.
  - now apply LogAttrs_stdout.
Qed.

(** A line [emitted] names is [Handle] of a record stamped by a reading of
    the clock. *)
Lemma emitted_Handle h c w :
  Forall (fun line => exists r n, line = Handle h r /\ rTime r = clock w n)
    (emitted h c w).
Proof.
  destruct c as [msg err attrs|msg err attrs|start name attrs|ctx level msg attrs];
    simpl;
    match goal with |- context [if ?b then _ else _] => destruct b end;
    repeat constructor; eexists _, _; split; reflexivity.
Qed.

End emitters.

(** ** Keys on a line *)

Section keys.
Import context slog logger.

Lemma has_key_appendAttr env level h a k :
  built env level h ->
  (k =? "time")%string = false -> (k =? "")%string = false ->
  has_key k (appendAttr h a) = (Key a =? k)%string.
Proof.
  intros B Ht He. rewrite (appendAttr_built _ _ _ _ B).
  destruct (Key a =? k)%string eqn:Hk.
  - apply String.eqb_eq in Hk. subst k. rewrite Ht, andb_false_r.
    unfold isEmpty. rewrite He. simpl. now rewrite String.eqb_refl.
  - destruct ((env =? "development")%string && (Key a =? "time")%string);
      [reflexivity|].
    destruct (isEmpty a); [reflexivity|]. simpl. now rewrite Hk.
Qed.

Lemma has_key_appendAttrs env level h l k :
  built env level h ->
  (k =? "time")%string = false -> (k =? "")%string = false ->
  has_key k (appendAttrs h l) = has_key k l.
Proof.
  intros B Ht He. induction l as [|a l IH]; [reflexivity|].
  change (appendAttrs h (a :: l)) with (appendAttr h a ++ appendAttrs h l).
  rewrite has_key_app, IH, (has_key_appendAttr _ _ _ _ _ B Ht He).
  reflexivity.
Qed.

(** A key other than the built-in ones is on a line exactly when a bound
    or a call-site attribute has it. *)
Lemma has_key_Handle env level h r k :
  built env level h ->
  (k =? "time")%string = false -> (k =? "")%string = false ->
  (k =? "level")%string = false -> (k =? "msg")%string = false ->
  has_key k (fields (Handle h r)) =
  has_key k (preformattedAttrs h) || has_key k (rAttrs r).
Proof.
  intros B Ht He Hl Hm. unfold Handle, built_ins. simpl fields.
  rewrite !has_key_app, (has_key_appendAttrs _ _ _ _ _ B Ht He).
  rewrite !(has_key_appendAttr _ _ _ _ _ B Ht He).
  assert (has_key k (if IsZero (rTime r) then []
                     else appendAttr h (Time_attr TimeKey (rTime r))) = false)
    as ->.
  { destruct (IsZero (rTime r)); [reflexivity|].
    rewrite (has_key_appendAttr _ _ _ _ _ B Ht He).
    unfold Time_attr, TimeKey. cbn [Key]. now rewrite String.eqb_sym. }
  unfold Any_level, String, LevelKey, MessageKey. cbn [Key].
  rewrite (String.eqb_sym "level"), (String.eqb_sym "msg"), Hl, Hm.
  reflexivity.
Qed.

Lemma substring_nonempty n s : s <> "" -> substring 0 (S n) s <> "".
Proof. destruct s; [congruence|]. simpl. congruence. Qed.

End keys.

(** ** Derivations *)

Section derivations.
Import context slog logger.

Lemma derive_run l d w h :
  heap w !! l = Some h ->
  derive l d w = Returned (length (heap w)) (after_derive h d w).
Proof.
  intros E. destruct d as [name|name|ctx]; simpl derive.
  - unfold WithComponent. now step.
  - unfold WithOperation. now step.
  - unfold WithRequestID, mbind, M_bind, uuid.New_String, load. simpl.
    now rewrite E.
Qed.

Lemma WithRequestID_run l ctx w h :
  heap w !! l = Some h ->
  WithRequestID l ctx w =
  Returned (WithValue ctx RequestIDKey (string_any (uuids w (uuid_calls w))),
            length (heap w))
           (after_derive h (by_RequestID ctx) w).
Proof.
  intros E. unfold WithRequestID, mbind, M_bind, uuid.New_String, load. simpl.
  now rewrite E.
Qed.

Lemma lookup_after_derive_new h d w :
  heap (after_derive h d w) !! length (heap w) = Some (derived h d w).
Proof. simpl. now apply list_lookup_middle. Qed.

Lemma lookup_after_derive_old h d w p hp :
  heap w !! p = Some hp -> heap (after_derive h d w) !! p = Some hp.
Proof. intros E. simpl. now apply lookup_app_l_Some. Qed.

(** Whatever the handler, a derivation keeps what was bound and puts what
    it binds after it. *)
Lemma derived_preformatted_prefix h d w :
  preformattedAttrs (derived h d w) =
  preformattedAttrs h ++ appendAttr h (attached d (uuids w) (uuid_calls w)).
Proof. unfold derived. simpl. now rewrite app_nil_r. Qed.

Lemma derived_built env level h d w :
  built env level h -> built env level (derived h d w).
Proof. intros B. now apply built_With. Qed.

(** None of the three attached keys is ["time"] or empty, so a handler of
    this package binds the attribute as it is. *)
Lemma derived_preformatted env level h d w :
  built env level h ->
  preformattedAttrs (derived h d w) =
  preformattedAttrs h ++ [attached d (uuids w) (uuid_calls w)].
Proof.
  intros B. rewrite derived_preformatted_prefix. f_equal.
  apply (appendAttr_kept _ _ _ _ B); now destruct d.
Qed.

Lemma derive_all_run env level ds : forall l w h,
  heap w !! l = Some h -> built env level h ->
  exists l' w' h',
    derive_all l ds w = Returned l' w' /\
    heap w' !! l' = Some h' /\
    built env level h' /\
    preformattedAttrs h' =
      preformattedAttrs h ++ attached_all ds (uuids w) (uuid_calls w) /\
    (forall p hp, heap w !! p = Some hp -> heap w' !! p = Some hp) /\
    stdout w' = stdout w /\ clock w' = clock w /\
    clock_reads w' = clock_reads w /\ uuids w' = uuids w /\
    traces w' = traces w /\ stack_calls w' = stack_calls w.
Proof.
  induction ds as [|d ds IH]; intros l w h E B.
  - exists l, w, h. simpl. rewrite app_nil_r. now repeat split.
  - simpl derive_all.
    rewrite (bind_Returned _ _ _ _ _ (derive_run l d w h E)).
    destruct (IH (length (heap w)) (after_derive h d w) (derived h d w)
                (lookup_after_derive_new h d w) (derived_built _ _ _ d w B))
      as (l' & w' & h' & Hrun & Hl' & B' & Hpre & Hold & Hio).
    exists l', w', h'. split; [exact Hrun|]. split; [exact Hl'|].
    split; [exact B'|]. split.
    + rewrite Hpre, (derived_preformatted _ _ _ d w B), <- app_assoc.
      reflexivity.
    + split; [|exact Hio].
      intros p hp Hp. apply Hold. now apply lookup_after_derive_old.
Qed.

Lemma GetRequestID_WithValue ctx id :
  GetRequestID (WithValue ctx RequestIDKey (string_any id)) = id.
Proof.
  unfold GetRequestID. cbn [context.Value].
  now rewrite decide_True by reflexivity.
Qed.

Lemma Value_unbound ctx key : binds ctx key = false -> context.Value ctx key = nil_any.
Proof.
  induction ctx as [|parent IH k v]; [reflexivity|]. simpl. intros Hb.
  apply orb_false_iff in Hb as [Hk Hp]. apply bool_decide_eq_false in Hk.
  rewrite decide_False by exact Hk. now apply IH.
Qed.

End derivations.

#[global] Hint Constructors built : logger.
#[global] Hint Resolve derived_built lookup_after_derive_new
  lookup_after_derive_old : logger.

(** ** Lines of handlers that differ in the order of what is bound *)

Section reordering.
Import context slog logger.

Lemma appendAttr_opts h1 h2 a :
  opts h1 = opts h2 -> appendAttr h1 a = appendAttr h2 a.
Proof. intros Ho. unfold appendAttr. now rewrite Ho. Qed.

Lemma appendAttrs_opts h1 h2 l :
  opts h1 = opts h2 -> appendAttrs h1 l = appendAttrs h2 l.
Proof.
  intros Ho. unfold appendAttrs. induction l as [|a l IH]; [reflexivity|].
  simpl. now rewrite IH, (appendAttr_opts h1 h2 a Ho).
Qed.

Lemma built_ins_opts h1 h2 r :
  opts h1 = opts h2 -> built_ins h1 r = built_ins h2 r.
Proof.
  intros Ho. unfold built_ins.
  now rewrite !(appendAttr_opts h1 h2 _ Ho).
Qed.

Lemma Handle_reordered h1 h2 r :
  opts h1 = opts h2 -> encoding h1 = encoding h2 ->
  preformattedAttrs h1 ≡ₚ preformattedAttrs h2 ->
  same_attributes (Handle h1 r) (Handle h2 r).
Proof.
  intros Ho He Hp. split; [exact He|]. simpl fields.
  rewrite (built_ins_opts h1 h2 r Ho), (appendAttrs_opts h1 h2 _ Ho).
  now rewrite Hp.
Qed.

Lemma appended_opts h1 h2 err w1 w2 :
  opts h1 = opts h2 -> same_io w1 w2 ->
  appended h1 err w1 = appended h2 err w2.
Proof.
  intros Ho (_ & _ & _ & _ & _ & Ht & Hs). unfold appended, enabled.
  now rewrite Ho, Ht, Hs.
Qed.

Lemma emitted_reordered h1 h2 c w1 w2 :
  opts h1 = opts h2 -> encoding h1 = encoding h2 ->
  preformattedAttrs h1 ≡ₚ preformattedAttrs h2 ->
  same_io w1 w2 ->
  Forall2 same_attributes (emitted h1 c w1) (emitted h2 c w2).
Proof.
  intros Ho He Hp Hio.
  pose proof (appended_opts h1 h2) as Ha.
  destruct Hio as (Hout & Hc & Hr & Hio).
  destruct c as [msg err attrs|msg err attrs|start name attrs|ctx level msg attrs];
    unfold emitted, enabled; rewrite Ho;
    match goal with |- context [if ?b then _ else _] => destruct b end;
    try constructor; try constructor;
    rewrite ?Hc, ?Hr;
    try rewrite (Ha err w1 w2 Ho (conj Hout (conj Hc (conj Hr Hio))));
    now apply Handle_reordered.
Qed.

End reordering.

(** ** Properties of the package *)

Section properties.
Import context slog logger.

(** C1, as the code has it: on a logger built by [New env level] (or derived
    from one), every line any call writes is JSON-encoded and has a [time]
    key when [env] is ["production"]; is text and has no [time] key when
    [env] is ["development"]; and is text with its [time] key for every
    other [env].  The clock is assumed never to read the zero instant. *)
Theorem C1_time_key_by_environment env level l h w c :
  heap w !! l = Some h -> built env level h ->
  (forall n, IsZero (clock w n) = false) ->
  exists new,
    stdout (final_world (run_call l c w)) = stdout w ++ new /\
    Forall (fun line =>
      (env = "production" ->
         line_encoding line = JSON /\ has_key "time" (fields line) = true) /\
      (env = "development" ->
         line_encoding line = Text /\ has_key "time" (fields line) = false) /\
      (env <> "production" -> env <> "development" ->
         line_encoding line = Text /\ has_key "time" (fields line) = true))
      new.
Proof.
  intros E B Hclock. exists (emitted h c w).
  split; [now apply run_call_stdout|].
  eapply Forall_impl; [apply emitted_Handle|].
  intros line (r & n & -> & Hr). cbv beta.
  assert (Hz : IsZero (rTime r) = false) by now rewrite Hr.
  rewrite (line_encoding_built _ _ _ r B).
  split; [|split].
  - intros ->. split; [reflexivity|].
    now apply line_has_time with "production" level.
  - intros ->. split; [reflexivity|].
    now apply line_development with level.
  - intros Hp Hd. apply String.eqb_neq in Hp. rewrite Hp.
    split; [reflexivity|]. now apply line_has_time with env level.
Qed.

(** C1 does not extend to every environment other than ["production"]:
    ["staging"] is one, yet the line written there has a [time] key. *)
Lemma C1_counterexample_staging :
  "staging" <> "production" /\
  exists line,
    In line (sample.lines ((l ← New "staging" LevelInfo;
                            Error l "boom" None []) sample.w0)) /\
    has_key "time" (fields line) = true.
Proof.
  split; [discriminate|].
  eexists. split; [left; reflexivity|reflexivity].
Qed.

Lemma C1_witness :
  exists new,
    stdout (final_world
      (run_call 0%nat (call_Error "upload failed" (Some "disk full") [])
         (sample.started "development" LevelDebug))) =
    stdout (sample.started "development" LevelDebug) ++ new /\
    Forall (fun line =>
      ("development" = "production" ->
         line_encoding line = JSON /\ has_key "time" (fields line) = true) /\
      ("development" = "development" ->
         line_encoding line = Text /\ has_key "time" (fields line) = false) /\
      ("development" <> "production" -> "development" <> "development" ->
         line_encoding line = Text /\ has_key "time" (fields line) = true))
      new.
Proof.
  apply (C1_time_key_by_environment "development" LevelDebug 0%nat
           (New_handler "development" LevelDebug)).
  - reflexivity.
  - apply built_New.
  - intros n. unfold IsZero. simpl. apply Z.eqb_neq. lia.
Defined.

(** C2, as the code has it: on a logger whose minimum level is Info,
    [Error] returns after writing one line for a record whose attributes are
    the caller's followed by the [error] attribute (when [err] is not nil)
    and nothing else; [runtime.Stack] is not called; [Error] adds no [stack]
    attribute, so the line has a [stack] key exactly where the caller's own
    bound or call-site attributes have one.  This holds for every [err] and
    every list of extra attributes. *)
Theorem C2_info_level_never_captures_stack env l h w msg err attrs :
  heap w !! l = Some h -> built env LevelInfo h ->
  let added := match err with
               | Some text => [String "error" text]
               | None => []
               end in
  let line := Handle h {| rTime := clock w (clock_reads w);
                          rLevel := LevelError; rMessage := msg;
                          rAttrs := attrs ++ added |} in
  exists w',
    Error l msg err attrs w = Returned tt w' /\
    stack_calls w' = stack_calls w /\
    stdout w' = stdout w ++ [line] /\
    has_key "stack" added = false /\
    has_key "stack" (fields line) = has_key "stack" (preformattedAttrs h ++ attrs).
Proof.
  intros E B added line.
  assert (Hd : enabled h Background LevelDebug = false)
    by (unfold enabled; now rewrite (built_level _ _ _ B)).
  assert (He : enabled h Background LevelError = true)
    by (unfold enabled; now rewrite (built_level _ _ _ B)).
  assert (Ha : appended h err w = added)
    by (unfold appended, added; rewrite Hd; now destruct err).
  assert (Hw : after_capture h err w = w)
    by (unfold after_capture; rewrite Hd; now destruct err).
  exists (logged h LevelError msg (attrs ++ added) w).
  rewrite (Error_run l h w E), Ha, Hw.
  rewrite (LogAttrs_run l h _ _ _ _ w E), He.
  assert (Hk : has_key "stack" added = false) by (now destruct err).
  repeat split; try assumption.
  subst line. rewrite (has_key_Handle _ _ _ _ "stack" B); try reflexivity.
  cbn [rAttrs]. now rewrite !has_key_app, Hk, orb_false_r.
Qed.

(** C2 does not hold for every list of extra attributes: [Error] hands the
    caller's attributes on as they are, so at level Info an attribute the
    caller keys [stack] is in the record and on the line. *)
Lemma C2_counterexample_caller_stack :
  exists line,
    In line (sample.lines ((l ← New "production" LevelInfo;
                            Error l "boom" (Some "disk full")
                              [String "stack" "mine"]) sample.w0)) /\
    In (String "stack" "mine") (fields line) /\
    has_key "stack" (fields line) = true.
Proof.
  eexists. split; [left; reflexivity|]. split; [|reflexivity].
  simpl. tauto.
Qed.

Lemma C2_witness :
  exists w',
    Error 0%nat "upload failed" (Some "disk full") [String "file" "a.png"]
      (sample.started "production" LevelInfo) = Returned tt w' /\
    stack_calls w' = stack_calls (sample.started "production" LevelInfo) /\
    stdout w' =
      [Handle (New_handler "production" LevelInfo)
         {| rTime := 1000; rLevel := LevelError; rMessage := "upload failed";
            rAttrs := [String "file" "a.png"; String "error" "disk full"] |}] /\
    has_key "stack" [String "error" "disk full"] = false /\
    has_key "stack"
      (fields (Handle (New_handler "production" LevelInfo)
         {| rTime := 1000; rLevel := LevelError; rMessage := "upload failed";
            rAttrs := [String "file" "a.png"; String "error" "disk full"] |}))
    = false.
Proof.
  apply (C2_info_level_never_captures_stack "production" 0%nat
           (New_handler "production" LevelInfo)
           (sample.started "production" LevelInfo)
           "upload failed" (Some "disk full") [String "file" "a.png"]).
  - reflexivity.
  - apply built_New.
Defined.

(** C3, as the code has it: on a logger whose minimum level is Debug,
    [Error] writes one line for a record whose attributes are the caller's
    followed by what it adds: nothing when [err] is nil; the [error]
    attribute and a [stack] attribute holding the first 4096 bytes of the
    goroutine's trace, which is not empty, when [err] is not nil.  So it adds
    a non-empty [stack] attribute exactly when [err] is not nil, and the
    line has a [stack] key exactly when [err] is not nil or the caller's own
    bound or call-site attributes have one. *)
Theorem C3_debug_level_stack_iff_error env l h w msg err attrs :
  heap w !! l = Some h -> built env LevelDebug h ->
  traces w (stack_calls w) <> "" ->
  let stack := substring 0 4096 (traces w (stack_calls w)) in
  let added := match err with
               | Some text => [String "error" text; String "stack" stack]
               | None => []
               end in
  let line := Handle h {| rTime := clock w (clock_reads w);
                          rLevel := LevelError; rMessage := msg;
                          rAttrs := attrs ++ added |} in
  exists w',
    Error l msg err attrs w = Returned tt w' /\
    stdout w' = stdout w ++ [line] /\
    stack <> "" /\
    ((exists s, s <> "" /\ In (String "stack" s) added) <-> err <> None) /\
    (has_key "stack" added = true <-> err <> None) /\
    has_key "stack" (fields line) =
      has_key "stack" (preformattedAttrs h ++ attrs) ||
      match err with Some _ => true | None => false end.
Proof.
  intros E B Htrace stack added line.
  assert (Hd : enabled h Background LevelDebug = true)
    by (unfold enabled; now rewrite (built_level _ _ _ B)).
  assert (He : enabled h Background LevelError = true)
    by (unfold enabled; now rewrite (built_level _ _ _ B)).
  assert (Ha : appended h err w = added)
    by (unfold appended, added; rewrite Hd; now destruct err).
  assert (Hs : stack <> "") by (now apply (substring_nonempty 4095)).
  exists (logged h LevelError msg (attrs ++ added) (after_capture h err w)).
  rewrite (Error_run l h w E), Ha.
  rewrite (LogAttrs_run l h)
    by (now rewrite heap_after_capture).
  rewrite He.
  split; [reflexivity|]. split.
  { unfold logged, after_capture. rewrite Hd. now destruct err. }
  split; [exact Hs|]. split; [|split].
  - split.
    + intros (s & _ & Hin) ->. exact Hin.
    + intros Hn. destruct err as [text|]; [|congruence].
      exists stack. split; [exact Hs|]. right. now left.
  - destruct err; simpl; split; congruence.
  - subst line. rewrite (has_key_Handle _ _ _ _ "stack" B); try reflexivity.
    cbn [rAttrs]. rewrite !has_key_app, orb_assoc. f_equal.
    now destruct err.
Qed.

(** C3 does not hold for every call: with a nil [err], at level Debug, an
    attribute the caller keys [stack] is in the record, non-empty, though
    [err] is nil. *)
Lemma C3_counterexample_caller_stack :
  exists line,
    In line (sample.lines ((l ← New "production" LevelDebug;
                            Error l "boom" None
                              [String "stack" "mine"]) sample.w0)) /\
    In (String "stack" "mine") (fields line) /\
    "mine" <> "".
Proof.
  eexists. split; [left; reflexivity|]. split.
  - simpl. tauto.
  - discriminate.
Qed.

Lemma C3_witness :
  exists w',
    Error 0%nat "upload failed" (Some "disk full") []
      (sample.started "development" LevelDebug) = Returned tt w' /\
    stdout w' =
      [Handle (New_handler "development" LevelDebug)
         {| rTime := 1000; rLevel := LevelError; rMessage := "upload failed";
            rAttrs := [String "error" "disk full";
                       String "stack" "goroutine 1 [running]:"] |}] /\
    "goroutine 1 [running]:" <> "" /\
    ((exists s, s <> "" /\
        In (String "stack" s)
           [String "error" "disk full";
            String "stack" "goroutine 1 [running]:"])
     <-> Some "disk full" <> None) /\
    (true = true <-> Some "disk full" <> None) /\
    true = true.
Proof.
  apply (C3_debug_level_stack_iff_error "development" 0%nat
           (New_handler "development" LevelDebug)
           (sample.started "development" LevelDebug)
           "upload failed" (Some "disk full") []).
  - reflexivity.
  - apply built_New.
  - discriminate.
Defined.

(** C4: on a live logger, [Fatal] does what [Error] does (the same world
    results, with the one error-level line [Error] writes whenever the error
    level is enabled) and the process then exits with status 1; [Fatal] is
    never an outcome that returns. *)
Theorem C4_fatal_is_error_then_exit_1 l h w msg err attrs :
  heap w !! l = Some h ->
  exists w',
    Error l msg err attrs w = Returned tt w' /\
    Fatal l msg err attrs w = Exited 1 w' /\
    (forall a w'', Fatal l msg err attrs w <> Returned a w'') /\
    stdout w' = stdout w ++ emitted h (call_Error msg err attrs) w /\
    (opt_Level (opts h) <= LevelError ->
     exists r, emitted h (call_Error msg err attrs) w = [Handle h r] /\
               rLevel r = LevelError /\ rMessage r = msg).
Proof.
  intros E. destruct (Error_returns l h w E msg err attrs) as [w' Hw'].
  exists w'. split; [exact Hw'|].
  split; [now rewrite Fatal_run, Hw'|].
  split; [intros a w''; apply Fatal_never_returns|].
  split.
  - change w' with (final_world (Returned tt w')). rewrite <- Hw'.
    now apply Error_stdout.
  - intros Hl. simpl. unfold enabled.
    apply Z.leb_le in Hl. rewrite Hl. eexists. now repeat split.
Qed.

Lemma C4_witness :
  exists w',
    Error 0%nat "no database" (Some "dial tcp: refused") []
      (sample.started "production" LevelInfo) = Returned tt w' /\
    Fatal 0%nat "no database" (Some "dial tcp: refused") []
      (sample.started "production" LevelInfo) = Exited 1 w' /\
    stdout w' =
      [Handle (New_handler "production" LevelInfo)
         {| rTime := 1000; rLevel := LevelError; rMessage := "no database";
            rAttrs := [String "error" "dial tcp: refused"] |}].
Proof.
  destruct (C4_fatal_is_error_then_exit_1 0%nat
              (New_handler "production" LevelInfo)
              (sample.started "production" LevelInfo)
              "no database" (Some "dial tcp: refused") [] eq_refl)
    as (w' & HE & HF & _ & Hout & _).
  exists w'. repeat split; assumption.
Defined.

(** C10: with a nil [err], on a logger of any minimum level, [Error] is
    [LogAttrs] at error level on the caller's attributes as they are:
    [runtime.Stack] is not called, and the record handled (when the error
    level is enabled) carries exactly the caller's attributes. *)
Theorem C10_nil_error_adds_nothing env level l h w msg attrs :
  heap w !! l = Some h -> built env level h ->
  Error l msg None attrs w =
    slog_Logger.LogAttrs l Background LevelError msg attrs w /\
  exists w',
    Error l msg None attrs w = Returned tt w' /\
    stack_calls w' = stack_calls w /\
    stdout w' = stdout w ++
      (if level <=? LevelError
       then [Handle h {| rTime := clock w (clock_reads w);
                         rLevel := LevelError; rMessage := msg;
                         rAttrs := attrs |}]
       else []).
Proof.
  intros E B.
  assert (Hrun : Error l msg None attrs w =
                 slog_Logger.LogAttrs l Background LevelError msg attrs w).
  { rewrite (Error_run l h w E). simpl. now rewrite app_nil_r. }
  split; [exact Hrun|]. rewrite Hrun, (LogAttrs_run l h _ _ _ _ w E).
  unfold enabled. rewrite (built_level _ _ _ B).
  eexists. split; [reflexivity|].
  destruct (level <=? LevelError); simpl; [now split|].
  now rewrite app_nil_r.
Qed.

Lemma C10_witness :
  Error 0%nat "cache miss" None [String "key" "k1"]
    (sample.started "development" LevelDebug) =
  slog_Logger.LogAttrs 0%nat Background LevelError "cache miss"
    [String "key" "k1"] (sample.started "development" LevelDebug) /\
  exists w',
    Error 0%nat "cache miss" None [String "key" "k1"]
      (sample.started "development" LevelDebug) = Returned tt w' /\
    stack_calls w' = 0%nat /\
    stdout w' =
      [Handle (New_handler "development" LevelDebug)
         {| rTime := 1000; rLevel := LevelError; rMessage := "cache miss";
            rAttrs := [String "key" "k1"] |}].
Proof.
  apply (C10_nil_error_adds_nothing "development" LevelDebug 0%nat
           (New_handler "development" LevelDebug)
           (sample.started "development" LevelDebug)).
  - reflexivity.
  - apply built_New.
Defined.

(** C5: on a live logger of this package, [WithRequestID] returns a
    context and a new logger such that [GetRequestID] of that context is the
    identifier the call drew, and the [request_id] attribute the call bound
    last on the new logger holds exactly that string. *)
Theorem C5_request_id_round_trip env level l h w ctx :
  heap w !! l = Some h -> built env level h ->
  exists ctx' l' w' h',
    WithRequestID l ctx w = Returned (ctx', l') w' /\
    heap w' !! l' = Some h' /\
    GetRequestID ctx' = uuids w (uuid_calls w) /\
    preformattedAttrs h' =
      preformattedAttrs h ++ [String "request_id" (GetRequestID ctx')].
Proof.
  intros E B. eexists _, _, _, _.
  split; [exact (WithRequestID_run l ctx w h E)|].
  split; [apply lookup_after_derive_new|].
  rewrite GetRequestID_WithValue. split; [reflexivity|].
  now apply (derived_preformatted _ _ _ (by_RequestID ctx) w B).
Qed.

Lemma C5_witness :
  exists ctx' l' w' h',
    WithRequestID 0%nat (WithValue Background (string_any "user") (string_any "ann"))
      (sample.started "production" LevelInfo) = Returned (ctx', l') w' /\
    heap w' !! l' = Some h' /\
    GetRequestID ctx' = "6ba7b810-9dad-11d1-80b4-00c04fd430c8" /\
    preformattedAttrs h' = [String "request_id" (GetRequestID ctx')].
Proof.
  apply (C5_request_id_round_trip "production" LevelInfo 0%nat
           (New_handler "production" LevelInfo)
           (sample.started "production" LevelInfo)).
  - reflexivity.
  - apply built_New.
Defined.

(** C6: [GetRequestID] is a total function of the context.  It is the
    empty string when the private key is bound nowhere in the context, and
    when the value found under it is not a string.  The plain string
    ["request_id"] is another key than the private one, so a value a caller
    stores under it is never what [GetRequestID] returns: the result is what
    it was without that binding. *)
Theorem C6_missing_or_malformed_request_id ctx :
  (binds ctx RequestIDKey = false -> GetRequestID ctx = "") /\
  ((forall s, context.Value ctx RequestIDKey <> string_any s) ->
   GetRequestID ctx = "") /\
  string_any "request_id" <> RequestIDKey /\
  (forall v,
     GetRequestID (WithValue ctx (string_any "request_id") v) =
     GetRequestID ctx).
Proof.
  split; [|split; [|split]].
  - intros Hb. unfold GetRequestID. now rewrite (Value_unbound _ _ Hb).
  - intros Hs. unfold GetRequestID.
    destruct (context.Value ctx RequestIDKey) eqn:Hv; try reflexivity.
    now destruct (Hs s).
  - discriminate.
  - intros v. unfold GetRequestID. cbn [context.Value].
    now rewrite decide_False by discriminate.
Qed.

Lemma C6_witness :
  GetRequestID (WithValue Background (string_any "request_id")
                          (string_any "abc")) = "" /\
  GetRequestID (WithValue Background RequestIDKey (int_any 7)) = "".
Proof.
  split.
  - destruct (C6_missing_or_malformed_request_id Background)
      as (Habsent & _ & _ & Hplain).
    rewrite Hplain. apply Habsent. reflexivity.
  - apply (C6_missing_or_malformed_request_id
             (WithValue Background RequestIDKey (int_any 7))).
    intros s. vm_compute. discriminate.
Defined.

(** C7: each of the three derivations, on a live logger, returns a new
    logger whose bound attributes are the receiver's followed by what it
    binds (so every attribute bound on the receiver is bound on the result),
    and leaves the receiver, like every logger already allocated, as it
    was. *)
Theorem C7_derivation_only_adds l h w d :
  heap w !! l = Some h ->
  exists l' w' h',
    derive l d w = Returned l' w' /\
    heap w' !! l' = Some h' /\
    (exists more, preformattedAttrs h' = preformattedAttrs h ++ more) /\
    preformattedAttrs h ⊆ preformattedAttrs h' /\
    heap w' !! l = Some h /\
    (forall p hp, heap w !! p = Some hp -> heap w' !! p = Some hp).
Proof.
  intros E. exists (length (heap w)), (after_derive h d w), (derived h d w).
  split; [now apply derive_run|].
  split; [auto with logger|].
  split; [eexists; apply derived_preformatted_prefix|].
  split.
  - intros a Ha. rewrite derived_preformatted_prefix.
    apply elem_of_app. now left.
  - split; auto with logger.
Qed.

Lemma C7_witness :
  exists l' w' h',
    derive 0%nat (by_Component "uploader")
      (sample.started "development" LevelDebug) = Returned l' w' /\
    heap w' !! l' = Some h' /\
    (exists more, preformattedAttrs h' = [] ++ more) /\
    [] ⊆ preformattedAttrs h' /\
    heap w' !! 0%nat = Some (New_handler "development" LevelDebug) /\
    (forall p hp,
       heap (sample.started "development" LevelDebug) !! p = Some hp ->
       heap w' !! p = Some hp).
Proof.
  apply (C7_derivation_only_adds 0%nat
           (New_handler "development" LevelDebug)
           (sample.started "development" LevelDebug)
           (by_Component "uploader")).
  reflexivity.
Defined.

(** C8: on a live logger of this package, any sequence of derivations
    returns a logger that binds the receiver's attributes followed by the
    attached ones, in the order attached; each line it writes has the fields
    the receiver's line for the same record has, together with the attached
    attributes, nothing lost and nothing else.  [WithComponent] then
    [WithOperation] and [WithOperation] then [WithComponent] give loggers
    whose lines, call by call, have the same attributes in another order. *)
Theorem C8_emitted_attributes_are_the_union env level l h w ds c :
  heap w !! l = Some h -> built env level h ->
  (exists l' w' h',
     derive_all l ds w = Returned l' w' /\
     heap w' !! l' = Some h' /\
     let attached := attached_all ds (uuids w) (uuid_calls w) in
     preformattedAttrs h' = preformattedAttrs h ++ attached /\
     stdout (final_world (run_call l' c w')) = stdout w' ++ emitted h' c w' /\
     Forall (fun line => exists r, line = Handle h' r) (emitted h' c w') /\
     forall r,
       fields (Handle h' r) ≡ₚ fields (Handle h r) ++ attached /\
       forall a, a ∈ fields (Handle h' r) <->
                 a ∈ fields (Handle h r) \/ a ∈ attached) /\
  forall component operation,
    exists l1 w1 h1 l2 w2 h2,
      (x ← WithComponent l component; WithOperation x operation) w
        = Returned l1 w1 /\
      (x ← WithOperation l operation; WithComponent x component) w
        = Returned l2 w2 /\
      heap w1 !! l1 = Some h1 /\ heap w2 !! l2 = Some h2 /\
      preformattedAttrs h1 =
        preformattedAttrs h ++
        [String "component" component; String "operation" operation] /\
      preformattedAttrs h2 =
        preformattedAttrs h ++
        [String "operation" operation; String "component" component] /\
      stdout (final_world (run_call l1 c w1)) = stdout w ++ emitted h1 c w1 /\
      stdout (final_world (run_call l2 c w2)) = stdout w ++ emitted h2 c w2 /\
      Forall2 same_attributes (emitted h1 c w1) (emitted h2 c w2).
Proof.
  intros E B. split.
  - destruct (derive_all_run env level ds l w h E B)
      as (l' & w' & h' & Hrun & Hl' & B' & Hpre & _).
    exists l', w', h'. split; [exact Hrun|]. split; [exact Hl'|].
    cbv zeta. split; [exact Hpre|].
    split; [now apply run_call_stdout|].
    split.
    { eapply Forall_impl; [apply emitted_Handle|].
      intros line (r & n & Hr & _). eauto. }
    assert (Ho : opts h' = opts h)
      by now rewrite (built_opts _ _ _ B), (built_opts _ _ _ B').
    assert (Hperm : forall r,
      fields (Handle h' r) ≡ₚ
      fields (Handle h r) ++ attached_all ds (uuids w) (uuid_calls w)).
    { intros r. simpl fields.
      rewrite (built_ins_opts h' h r Ho), (appendAttrs_opts h' h _ Ho), Hpre.
      rewrite <- !app_assoc. do 2 f_equiv. apply Permutation_app_comm. }
    intros r. split; [apply Hperm|].
    intros a. rewrite (Hperm r). apply elem_of_app.
  - intros component operation.
    set (dc := by_Component component). set (do := by_Operation operation).
    set (wc := after_derive h dc w). set (hc := derived h dc w).
    set (wo := after_derive h do w). set (ho := derived h do w).
    exists (length (heap wc)), (after_derive hc do wc), (derived hc do wc),
           (length (heap wo)), (after_derive ho dc wo), (derived ho dc wo).
    assert (Bc : built env level hc) by (subst hc; auto with logger).
    assert (Bo : built env level ho) by (subst ho; auto with logger).
    assert (P1 : preformattedAttrs (derived hc do wc) =
                 preformattedAttrs h ++
                 [String "component" component; String "operation" operation]).
    { rewrite (derived_preformatted _ _ _ do wc Bc).
      unfold hc. rewrite (derived_preformatted _ _ _ dc w B).
      now rewrite <- app_assoc. }
    assert (P2 : preformattedAttrs (derived ho dc wo) =
                 preformattedAttrs h ++
                 [String "operation" operation; String "component" component]).
    { rewrite (derived_preformatted _ _ _ dc wo Bo).
      unfold ho. rewrite (derived_preformatted _ _ _ do w B).
      now rewrite <- app_assoc. }
    split.
    { rewrite (bind_Returned _ _ _ _ _ (derive_run l dc w h E)).
      apply (derive_run _ do wc hc), lookup_after_derive_new. }
    split.
    { rewrite (bind_Returned _ _ _ _ _ (derive_run l do w h E)).
      apply (derive_run _ dc wo ho), lookup_after_derive_new. }
    split; [apply lookup_after_derive_new|].
    split; [apply lookup_after_derive_new|].
    split; [exact P1|]. split; [exact P2|].
    split.
    { now rewrite (run_call_stdout _ c _ _ (lookup_after_derive_new hc do wc)). }
    split.
    { now rewrite (run_call_stdout _ c _ _ (lookup_after_derive_new ho dc wo)). }
    apply emitted_reordered.
    + reflexivity.
    + reflexivity.
    + rewrite P1, P2. f_equiv. apply perm_swap.
    + now repeat split.
Qed.

Lemma C8_witness :
  exists l' w' h',
    derive_all 0%nat [by_Operation "put"; by_Component "uploader"]
      (sample.started "production" LevelInfo) = Returned l' w' /\
    heap w' !! l' = Some h' /\
    preformattedAttrs h' =
      [String "operation" "put"; String "component" "uploader"] /\
    stdout (final_world
      (run_call l' (call_Error "upload failed" (Some "disk full") []) w')) =
    stdout w' ++
      emitted h' (call_Error "upload failed" (Some "disk full") []) w'.
Proof.
  destruct (C8_emitted_attributes_are_the_union "production" LevelInfo 0%nat
              (New_handler "production" LevelInfo)
              (sample.started "production" LevelInfo)
              [by_Operation "put"; by_Component "uploader"]
              (call_Error "upload failed" (Some "disk full") [])
              eq_refl (built_New "production" LevelInfo))
    as [(l' & w' & h' & Hrun & Hl' & Hpre & Hout & _) _].
  exists l', w', h'. repeat split; assumption.
Defined.

(** C9: what a request writes does not depend on the context the caller
    holds.  With two contexts [ctx1] and [ctx2] and everything else the
    same, deriving the request's logger from the context and calling [Error]
    (or [Fatal]) on it ends in the same outcome and the same world, line for
    line; and the level check and [LogAttrs] of the underlying logger give
    the same result whichever context they are handed. *)
Theorem C9_context_does_not_reach_the_log l w ctx1 ctx2 msg err attrs :
  in_request l ctx1 (fun l' => Error l' msg err attrs) w =
  in_request l ctx2 (fun l' => Error l' msg err attrs) w /\
  in_request l ctx1 (fun l' => Fatal l' msg err attrs) w =
  in_request l ctx2 (fun l' => Fatal l' msg err attrs) w /\
  (forall level,
     slog_Logger.Enabled l ctx1 level w = slog_Logger.Enabled l ctx2 level w) /\
  (forall level,
     slog_Logger.LogAttrs l ctx1 level msg attrs w =
     slog_Logger.LogAttrs l ctx2 level msg attrs w).
Proof.
  assert (Hreq : forall report,
    in_request l ctx1 report w = in_request l ctx2 report w).
  { intros report. unfold in_request.
    destruct (heap w !! l) as [h|] eqn:E.
    - now rewrite !(bind_Returned _ _ _ _ _ (WithRequestID_run l _ w h E)).
    - unfold WithRequestID, uuid.New_String, load, mbind, M_bind. simpl.
      now rewrite E. }
  split; [apply Hreq|]. split; [apply Hreq|].
  split; reflexivity.
Qed.

End properties.

(** ** Decimal numerals: [strconv] and [fmt] *)

Section numerals.
Import strings strconv numeral.

Lemma byte_range c : 0 <= byte c < 256.
Proof.
  unfold byte. pose proof (N_ascii_bounded c). lia.
Qed.

Lemma byte_ascii_of n : 0 <= n < 256 -> byte (ascii_of_N (Z.to_N n)) = n.
Proof.
  intros Hn. unfold byte. rewrite N_ascii_embedding by lia. lia.
Qed.

Lemma digits_value_ge s : forall n v,
  0 <= n -> digits_value s n = Some v -> n <= v.
Proof.
  induction s as [|c s IH]; intros n v Hn H; simpl in H.
  - injection H as <-. lia.
  - destruct (is_digit c) eqn:Hd; [|discriminate].
    unfold is_digit in Hd. apply andb_true_iff in Hd as [H1 H2].
    apply Z.leb_le in H1, H2. apply IH in H; lia.
Qed.

(** With fewer than 19 digits the value stays below [10 ^ 18]. *)
Lemma digits_value_bound s : forall n v,
  0 <= n -> digits_value s n = Some v ->
  v < (n + 1) * 10 ^ Z.of_nat (String.length s).
Proof.
  induction s as [|c s IH]; intros n v Hn H; simpl in H.
  - injection H as <-. simpl. lia.
  - destruct (is_digit c) eqn:Hd; [|discriminate].
    unfold is_digit in Hd. apply andb_true_iff in Hd as [H1 H2].
    apply Z.leb_le in H1, H2. apply IH in H; [|lia].
    cbn [String.length]. rewrite Nat2Z.inj_succ, Z.pow_succ_r by lia.
    assert (0 < 10 ^ Z.of_nat (String.length s)) by (apply Z.pow_pos_nonneg; lia).
    nia.
Qed.

Lemma Atoi_digits_spec s : forall n,
  Atoi_digits s n =
  match digits_value s n with
  | Some v => (v, None)
  | None => (0, Some ErrSyntax)
  end.
Proof.
  induction s as [|c s IH]; intros n; simpl; [reflexivity|].
  pose proof (byte_range c) as Hb. unfold is_digit.
  destruct (Z.leb_spec 48 (byte c)) as [H1|H1];
    destruct (Z.leb_spec (byte c) 57) as [H2|H2]; simpl.
  - rewrite Z.mod_small by lia.
    destruct (Z.ltb_spec 9 (byte c - 48)); [lia|]. apply IH.
  - rewrite Z.mod_small by lia.
    destruct (Z.ltb_spec 9 (byte c - 48)); [reflexivity|lia].
  - replace ((byte c - 48) mod 256) with (byte c + 208).
    + destruct (Z.ltb_spec 9 (byte c + 208)); [reflexivity|lia].
    + apply Z.mod_unique with (-1); lia.
  - lia.
Qed.

Lemma ParseUint_from_spec s : forall n,
  0 <= n <= maxUint64 ->
  match digits_value s n with
  | Some v =>
      ParseUint_from s n =
      if v <=? maxUint64 then (v, None) else (maxUint64, Some ErrRange)
  | None =>
      ParseUint_from s n = (0, Some ErrSyntax) \/
      ParseUint_from s n = (maxUint64, Some ErrRange)
  end.
Proof.
  unfold maxUint64. change (2 ^ 64 - 1) with 18446744073709551615.
  induction s as [|c s IH]; intros n Hn; simpl.
  - destruct (Z.leb_spec n 18446744073709551615); [reflexivity|lia].
  - unfold is_digit, maxUint64.
    change (2 ^ 64 - 1) with 18446744073709551615.
    change (2 ^ 64) with 18446744073709551616.
    change (18446744073709551615 / 10 + 1) with 1844674407370955162.
    destruct ((48 <=? byte c) && (byte c <=? 57)) eqn:Hd; [|now left].
    apply andb_true_iff in Hd as [H1 H2]. apply Z.leb_le in H1, H2.
    assert (Hge : forall m v, 0 <= m -> 18446744073709551615 < m ->
              digits_value s m = Some v ->
              (v <=? 18446744073709551615) = false).
    { intros m v Hm Hbig Hv. apply digits_value_ge in Hv; [|lia].
      apply Z.leb_gt. lia. }
    destruct (Z.leb_spec 1844674407370955162 n) as [Hc|Hc].
    + destruct (digits_value s (n * 10 + (byte c - 48))) as [v|] eqn:Hv;
        [|now right].
      now rewrite (Hge (n * 10 + (byte c - 48)) v) by (first [lia | exact Hv]).
    + destruct (Z.le_gt_cases (n * 10 + (byte c - 48)) 18446744073709551615)
        as [Hfit|Hover].
      * rewrite Z.mod_small by lia.
        destruct (Z.ltb_spec (n * 10 + (byte c - 48)) (n * 10)); [lia|].
        destruct (Z.ltb_spec 18446744073709551615 (n * 10 + (byte c - 48)));
          [lia|].
        simpl. apply IH. lia.
      * replace ((n * 10 + (byte c - 48)) mod 18446744073709551616)
          with (n * 10 + (byte c - 48) - 18446744073709551616)
          by (apply Z.mod_unique with 1; lia).
        destruct (Z.ltb_spec (n * 10 + (byte c - 48) - 18446744073709551616)
                    (n * 10)); [|lia].
        simpl.
        destruct (digits_value s (n * 10 + (byte c - 48))) as [v|] eqn:Hv;
          [|now right].
        now rewrite (Hge (n * 10 + (byte c - 48)) v) by (first [lia | exact Hv]).
Qed.

Lemma digits_value_nonneg s n v :
  0 <= n -> digits_value s n = Some v -> 0 <= v.
Proof. intros Hn H. apply digits_value_ge in H; lia. Qed.

Ltac compare_all :=
  repeat match goal with
         | |- context [Z.leb ?a ?b] => destruct (Z.leb_spec a b)
         | |- context [Z.ltb ?a ?b] => destruct (Z.ltb_spec a b)
         end;
  cbn [andb negb or_zero]; try reflexivity; try lia.

(** [ParseInt] once the sign is off: [neg] tells whether it was a minus. *)
Lemma ParseInt_tail (neg : bool) c rest :
  or_zero
    (let '(un, err) := ParseUint (String c rest) in
     match err with
     | Some ErrSyntax => (0, Some ErrSyntax)
     | _ =>
         let cutoff := 2 ^ 63 in
         if negb neg && (cutoff <=? un) then (cutoff - 1, Some ErrRange)
         else if neg && (cutoff <? un) then (- cutoff, Some ErrRange)
         else (if neg then - un else un, None)
     end) =
  match digits_value (String c rest) 0 with
  | Some v =>
      let z := if neg then - v else v in if in_int64 z then z else 0
  | None => 0
  end.
Proof.
  unfold ParseUint.
  pose proof (ParseUint_from_spec (String c rest) 0) as H.
  unfold maxUint64 in H. change (2 ^ 64 - 1) with 18446744073709551615 in H.
  specialize (H ltac:(lia)).
  destruct (digits_value (String c rest) 0) as [v|] eqn:Hv.
  - pose proof (digits_value_nonneg _ _ _ (Z.le_refl 0) Hv) as Hv0.
    rewrite H. unfold in_int64. change (2 ^ 63) with 9223372036854775808.
    destruct (Z.leb_spec v 18446744073709551615) as [Hfit|Hover];
      destruct neg; cbn [negb andb or_zero]; compare_all.
  - destruct H as [-> | ->]; [reflexivity|].
    now destruct neg.
Qed.

Lemma or_zero_ParseInt s : or_zero (ParseInt s) = int_of s.
Proof.
  unfold int_of, decimal, ParseInt. destruct s as [|c rest]; [reflexivity|].
  destruct (Ascii.eqb c "+") eqn:Hplus.
  - apply Ascii.eqb_eq in Hplus. subst c. cbn [Ascii.eqb Bool.eqb andb].
    destruct rest as [|c' rest']; [reflexivity|].
    apply (ParseInt_tail false).
  - destruct (Ascii.eqb c "-") eqn:Hminus.
    + destruct rest as [|c' rest']; [reflexivity|].
      rewrite (ParseInt_tail true).
      now destruct (digits_value (String c' rest') 0).
    + apply (ParseInt_tail false).
Qed.

(** On its fast path [Atoi] reads at most 18 digits, which always fit. *)
Lemma digits_value_small digits v :
  (String.length digits <= 18)%nat -> digits_value digits 0 = Some v ->
  0 <= v < 9223372036854775808.
Proof.
  intros Hl Hv. split; [now apply (digits_value_nonneg digits 0)|].
  apply digits_value_bound in Hv; [|lia].
  assert (10 ^ Z.of_nat (String.length digits) <= 10 ^ 18)
    by (apply Z.pow_le_mono_r; lia).
  change (10 ^ 18) with 1000000000000000000 in *. lia.
Qed.

Lemma or_zero_Atoi s : or_zero (Atoi s) = int_of s.
Proof.
  unfold Atoi.
  destruct ((0 <? String.length s)%nat && (String.length s <? 19)%nat)
    eqn:Hfast; [|apply or_zero_ParseInt].
  apply andb_true_iff in Hfast as [_ Hlen]. apply Nat.ltb_lt in Hlen.
  destruct s as [|c rest]; [reflexivity|].
  unfold int_of, decimal, in_int64. change (2 ^ 63) with 9223372036854775808.
  cbn [String.length] in Hlen.
  destruct (Ascii.eqb c "-") eqn:Hminus; cbn [orb].
  - destruct rest as [|c' rest']; [reflexivity|]. cbn [andb].
    change ((String.length (String c' rest') <? 1)%nat) with false.
    cbv iota. rewrite Atoi_digits_spec.
    destruct (digits_value (String c' rest') 0) as [v|] eqn:Hv; [|reflexivity].
    apply digits_value_small in Hv; [|cbn [String.length] in *; lia].
    cbn [fmap option_fmap option_map or_zero]. compare_all.
  - destruct (Ascii.eqb c "+") eqn:Hplus.
    + destruct rest as [|c' rest']; [reflexivity|]. cbn [andb].
      change ((String.length (String c' rest') <? 1)%nat) with false.
      cbv iota. rewrite Atoi_digits_spec.
      destruct (digits_value (String c' rest') 0) as [v|] eqn:Hv; [|reflexivity].
      apply digits_value_small in Hv; [|cbn [String.length] in *; lia].
      cbn [or_zero]. compare_all.
    + cbn [andb]. cbv iota. rewrite Atoi_digits_spec.
      destruct (digits_value (String c rest) 0) as [v|] eqn:Hv; [|reflexivity].
      apply digits_value_small in Hv; [|cbn [String.length] in *; lia].
      cbn [or_zero]. compare_all.
Qed.

Lemma is_digit_not_sign c :
  is_digit c = true -> Ascii.eqb c "-" = false /\ Ascii.eqb c "+" = false.
Proof.
  intros Hd. split; apply Ascii.eqb_neq; intros ->; discriminate Hd.
Qed.

(** What [fmt] writes for [u] reads back as [u]: after digits that gave
    [n], the [k] digits it writes give [n * 10 ^ k + u]. *)
Lemma digits_before_value fuel : forall u acc,
  0 <= u < 2 ^ Z.of_nat fuel ->
  exists k, 0 <= k /\
    forall n, digits_value (fmt.digits_before fuel u acc) n =
              digits_value acc (n * 10 ^ k + u).
Proof.
  induction fuel as [|fuel IH]; intros u acc Hu.
  - exists 0. split; [lia|]. intros n. simpl in *.
    f_equal. lia.
  - rewrite Nat2Z.inj_succ, Z.pow_succ_r in Hu by lia.
    assert (Hr : 0 <= u - u / 10 * 10 <= 9)
      by (pose proof (Z.div_mod u 10 ltac:(lia));
          pose proof (Z.mod_pos_bound u 10 ltac:(lia)); lia).
    assert (Hdigit : forall acc' n,
      digits_value
        (String (ascii_of_N (Z.to_N (48 + u - u / 10 * 10))) acc') n =
      digits_value acc' (n * 10 + (u - u / 10 * 10))).
    { intros acc' n. cbn [digits_value]. unfold is_digit.
      rewrite byte_ascii_of by lia.
      destruct (Z.leb_spec 48 (48 + u - u / 10 * 10)); [|lia].
      destruct (Z.leb_spec (48 + u - u / 10 * 10) 57); [|lia].
      cbn [andb]. f_equal. lia. }
    cbn [fmt.digits_before]. destruct (Z.ltb_spec u 10) as [Hlt|Hge].
    + exists 1. split; [lia|]. intros n. rewrite Hdigit.
      rewrite (Z.div_small u 10) by lia. f_equal. lia.
    + destruct (IH (u / 10)
                  (String (ascii_of_N (Z.to_N (48 + u - u / 10 * 10))) acc))
        as (k & Hk & Hval).
      { split; [apply Z.div_pos; lia|].
        apply Z.div_lt_upper_bound; lia. }
      exists (k + 1). split; [lia|]. intros n.
      rewrite Hval, Hdigit. f_equal.
      rewrite Z.pow_add_r by lia. lia.
Qed.

Lemma digits_of_value u :
  0 <= u ->
  digits_value (fmt.digits_before (S (Z.to_nat (Z.log2 u))) u "") 0 = Some u.
Proof.
  intros Hu.
  destruct (digits_before_value (S (Z.to_nat (Z.log2 u))) u "")
    as (k & _ & Hval).
  - split; [exact Hu|]. rewrite Nat2Z.inj_succ, Z2Nat.id by apply Z.log2_nonneg.
    destruct (Z.eq_dec u 0) as [->|Hne]; [reflexivity|].
    apply Z.log2_spec. lia.
  - rewrite Hval. reflexivity.
Qed.

Lemma digits_before_keeps fuel : forall u acc,
  acc <> "" -> fmt.digits_before fuel u acc <> "".
Proof.
  induction fuel as [|fuel IH]; intros u acc Hacc; cbn [fmt.digits_before];
    [exact Hacc|].
  destruct (u <? 10); [discriminate|]. apply IH. discriminate.
Qed.

Lemma digits_before_nonempty fuel u acc :
  fmt.digits_before (S fuel) u acc <> "".
Proof.
  cbn [fmt.digits_before]. destruct (u <? 10); [discriminate|].
  apply digits_before_keeps. discriminate.
Qed.

Lemma decimal_fmt_d z : decimal (fmt.d z) = Some z.
Proof.
  unfold fmt.d.
  pose proof (digits_of_value (Z.abs z) (Z.abs_nonneg z)) as Hv.
  pose proof (digits_before_nonempty (Z.to_nat (Z.log2 (Z.abs z)))
                (Z.abs z) "") as Hne.
  destruct (fmt.digits_before _ _ _) as [|c rest]; [congruence|].
  destruct (Z.ltb_spec z 0) as [Hneg|Hpos].
  - change (decimal (String "-" (String c rest)))
      with (Z.opp <$> digits_value (String c rest) 0).
    rewrite Hv. cbn. f_equal. lia.
  - assert (Hd : is_digit c = true).
    { cbn [digits_value] in Hv. now destruct (is_digit c). }
    destruct (is_digit_not_sign c Hd) as [Hm Hp].
    unfold decimal. rewrite Hm, Hp, Hv. f_equal. lia.
Qed.

End numerals.

(** ** More on the package [logger] *)

Section logger_more.
Import context slog logger.

Lemma enabled_Debug_Error h ctx :
  enabled h ctx LevelDebug = true -> enabled h ctx LevelError = true.
Proof.
  unfold enabled, LevelDebug, LevelError. intros H.
  apply Z.leb_le in H. apply Z.leb_le. lia.
Qed.

(** [Sub] is the difference, held within the [int64] range. *)
Lemma Sub_saturates t u :
  time.Sub t u =
  if t - u <? time.minDuration then time.minDuration
  else if time.maxDuration <? t - u then time.maxDuration
  else t - u.
Proof.
  unfold time.Sub, time.int64, time.minDuration, time.maxDuration.
  change (2 ^ 63) with 9223372036854775808.
  change (2 ^ 64) with 18446744073709551616.
  pose proof (Z.mod_pos_bound (t - u + 9223372036854775808)
                18446744073709551616 ltac:(lia)) as Hbound.
  pose proof (Z.mod_small (t - u + 9223372036854775808)
                18446744073709551616) as Hsmall.
  cbv zeta.
  set (m := (t - u + 9223372036854775808) mod 18446744073709551616) in *.
  repeat match goal with
         | |- context [Z.ltb ?a ?b] => destruct (Z.ltb_spec a b)
         | |- context [Z.eqb ?a ?b] => destruct (Z.eqb_spec a b)
         end; lia.
Qed.

(** X1: on a live logger [TimeTrack] reads the clock, and returns.  When
    the minimum level lets debug through it reads the clock once more and
    writes one debug line, with message [name] followed by [" completed"] and,
    after the caller's attributes, a [duration]: the first reading less
    [start] when that fits an [int64] of nanoseconds, and the nearer end of
    the [int64] range when it does not.  Otherwise it writes nothing.  It
    never captures a stack and never allocates. *)
Theorem TimeTrack_writes_duration_at_debug l h w start name attrs :
  heap w !! l = Some h ->
  let span := clock w (clock_reads w) - start in
  let elapsed :=
    if span <? - 2 ^ 63 then - 2 ^ 63
    else if 2 ^ 63 - 1 <? span then 2 ^ 63 - 1
    else span in
  exists w',
    TimeTrack l start name attrs w = Returned tt w' /\
    heap w' = heap w /\ stack_calls w' = stack_calls w /\
    stdout w' = stdout w ++
      (if opt_Level (opts h) <=? LevelDebug
       then [Handle h
               {| rTime := clock w (S (clock_reads w));
                  rLevel := LevelDebug;
                  rMessage := name +:+ " completed";
                  rAttrs := attrs ++ [Duration_attr "duration" elapsed] |}]
       else []) /\
    clock_reads w' =
      ((if (opt_Level (opts h) <=? LevelDebug)%Z then 2 else 1)
       + clock_reads w)%nat.
Proof.
  intros E span elapsed.
  rewrite TimeTrack_run, (LogAttrs_run l h) by exact E.
  rewrite Sub_saturates. fold span.
  change (if span <? time.minDuration then time.minDuration
          else if time.maxDuration <? span then time.maxDuration
          else span) with elapsed.
  eexists. split; [reflexivity|]. unfold enabled.
  destruct (opt_Level (opts h) <=? LevelDebug); simpl;
    rewrite ?app_nil_r; now repeat split.
Qed.

Lemma TimeTrack_witness :
  (exists w',
     TimeTrack 0%nat 900 "resize" [String "file" "a.png"]
       (sample.started "development" LevelDebug) = Returned tt w' /\
     stdout w' =
       [Handle (New_handler "development" LevelDebug)
          {| rTime := 1050; rLevel := LevelDebug;
             rMessage := "resize completed";
             rAttrs := [String "file" "a.png";
                        Duration_attr "duration" 100] |}] /\
     clock_reads w' = 2%nat) /\
  (exists w',
     TimeTrack 0%nat (- 2 ^ 63) "resize" []
       (sample.started "development" LevelDebug) = Returned tt w' /\
     stdout w' =
       [Handle (New_handler "development" LevelDebug)
          {| rTime := 1050; rLevel := LevelDebug;
             rMessage := "resize completed";
             rAttrs := [Duration_attr "duration" 9223372036854775807] |}]).
Proof.
  split.
  - destruct (TimeTrack_writes_duration_at_debug 0%nat
                (New_handler "development" LevelDebug)
                (sample.started "development" LevelDebug)
                900 "resize" [String "file" "a.png"] eq_refl)
      as (w' & Hrun & _ & _ & Hout & Hreads).
    exists w'. repeat split; assumption.
  - destruct (TimeTrack_writes_duration_at_debug 0%nat
                (New_handler "development" LevelDebug)
                (sample.started "development" LevelDebug)
                (- 2 ^ 63) "resize" [] eq_refl)
      as (w' & Hrun & _ & _ & Hout & _).
    exists w'. split; assumption.
Defined.

Lemma Error_world l h w msg err attrs :
  heap w !! l = Some h ->
  Error l msg err attrs w =
  Returned tt
    (if enabled h Background LevelError
     then logged h LevelError msg (attrs ++ appended h err w)
            (after_capture h err w)
     else after_capture h err w).
Proof.
  intros E. rewrite (Error_run l h w E).
  now rewrite (LogAttrs_run l h) by (now rewrite heap_after_capture).
Qed.

Lemma after_capture_io h err w :
  stdout (after_capture h err w) = stdout w /\
  clock (after_capture h err w) = clock w /\
  clock_reads (after_capture h err w) = clock_reads w.
Proof.
  unfold after_capture. destruct err; [|now repeat split].
  now destruct (enabled h Background LevelDebug).
Qed.

Lemma stack_calls_after_capture h err w :
  stack_calls (after_capture h err w) = S (stack_calls w) <->
  err <> None /\ opt_Level (opts h) <= LevelDebug.
Proof.
  unfold after_capture, enabled. destruct err as [text|].
  - destruct (Z.leb_spec (opt_Level (opts h)) LevelDebug); simpl.
    + split; [intros _; split; [discriminate|assumption]|reflexivity].
    + split; [lia|intros [_ ?]; lia].
  - split; [lia|intros [H _]; congruence].
Qed.

(** X2: on a live logger, whatever its handler and level, [Error] returns
    and calls [runtime.Stack] at most once: exactly when [err] is not nil
    and the minimum level lets debug through.  Whenever it did, it wrote one
    line, for a record that carries the captured [stack]; so no stack is
    captured for a record that is filtered out.  Above the error level it
    writes nothing, captures nothing and does not read the clock. *)
Theorem Error_captures_stack_only_for_a_written_line l h w msg err attrs :
  heap w !! l = Some h ->
  exists w',
    Error l msg err attrs w = Returned tt w' /\
    (stack_calls w' = stack_calls w \/ stack_calls w' = S (stack_calls w)) /\
    (stack_calls w' = S (stack_calls w) <->
     err <> None /\ opt_Level (opts h) <= LevelDebug) /\
    (stack_calls w' = S (stack_calls w) ->
     exists r,
       stdout w' = stdout w ++ [Handle h r] /\
       In (String "stack" (substring 0 4096 (traces w (stack_calls w))))
          (rAttrs r)) /\
    (LevelError < opt_Level (opts h) ->
     stdout w' = stdout w /\ stack_calls w' = stack_calls w /\
     clock_reads w' = clock_reads w).
Proof.
  intros E. rewrite (Error_run l h w E).
  rewrite (LogAttrs_run l h) by (now rewrite heap_after_capture).
  eexists. split; [reflexivity|].
  pose proof (enabled_Debug_Error h Background) as Himp.
  unfold appended, after_capture.
  assert (Hd : enabled h Background LevelDebug = true <->
               opt_Level (opts h) <= LevelDebug)
    by (unfold enabled; apply Z.leb_le).
  assert (He : LevelError < opt_Level (opts h) ->
               enabled h Background LevelError = false)
    by (unfold enabled; intros; apply Z.leb_gt; lia).
  destruct err as [text|].
  - destruct (enabled h Background LevelDebug) eqn:Hdebug.
    + rewrite (Himp eq_refl). simpl.
      split; [now right|]. split.
      { split; [intros _; split; [discriminate|now apply Hd]|reflexivity]. }
      split.
      { intros _. eexists. split; [reflexivity|]. simpl.
        apply in_or_app. right. right. now left. }
      intros Hhigh. apply He in Hhigh. rewrite (Himp eq_refl) in Hhigh.
      discriminate.
    + assert (Hno : ~ opt_Level (opts h) <= LevelDebug)
        by (intros Hle; apply Hd in Hle; discriminate).
      destruct (enabled h Background LevelError) eqn:Herror; simpl.
      * split; [now left|]. split; [split; [lia|tauto]|].
        split; [lia|]. intros Hhigh. apply He in Hhigh. congruence.
      * split; [now left|]. split; [split; [lia|tauto]|].
        split; [lia|]. now intros _.
  - destruct (enabled h Background LevelError) eqn:Herror; simpl.
    + split; [now left|]. split; [split; [lia|intros [H _]; congruence]|].
      split; [lia|]. intros Hhigh. apply He in Hhigh. congruence.
    + split; [now left|]. split; [split; [lia|intros [H _]; congruence]|].
      split; [lia|]. now intros _.
Qed.

Lemma Error_captures_witness :
  exists w',
    Error 0%nat "upload failed" (Some "disk full") []
      (sample.started "development" LevelDebug) = Returned tt w' /\
    (stack_calls w' = 1%nat <->
     Some "disk full" <> None /\ LevelDebug <= LevelDebug).
Proof.
  destruct (Error_captures_stack_only_for_a_written_line 0%nat
              (New_handler "development" LevelDebug)
              (sample.started "development" LevelDebug)
              "upload failed" (Some "disk full") [] eq_refl)
    as (w' & Hrun & _ & Hiff & _).
  exists w'. split; assumption.
Defined.

Lemma appendAttrs_filter env level h l :
  built env level h -> appendAttrs h l = List.filter (kept env) l.
Proof.
  intros B. induction l as [|a l IH]; [reflexivity|].
  change (appendAttrs h (a :: l)) with (appendAttr h a ++ appendAttrs h l).
  rewrite IH, (appendAttr_built _ _ _ _ B). cbn [List.filter]. unfold kept.
  destruct ((env =? "development")%string && (Key a =? "time")%string);
    [reflexivity|].
  now destruct (isEmpty a).
Qed.

(** X3: a handler built by this package writes the caller's attributes in
    their order, less the zero [Attr] and, in development, less every
    attribute keyed ["time"].  So in development an attribute the caller
    names ["time"] is lost with the timestamp, while elsewhere every
    attribute that is not the zero [Attr] is on the line. *)
Theorem development_drops_attributes_keyed_time env level h r :
  built env level h ->
  fields (Handle h r) =
    built_ins h r ++ preformattedAttrs h ++ List.filter (kept env) (rAttrs r) /\
  (env = "development" ->
   forall v, ~ In {| Key := "time"; Val := v |} (fields (Handle h r))) /\
  (env <> "development" ->
   forall a, In a (rAttrs r) -> isEmpty a = false ->
             In a (fields (Handle h r))).
Proof.
  intros B.
  assert (Hf : fields (Handle h r) =
    built_ins h r ++ preformattedAttrs h ++ List.filter (kept env) (rAttrs r))
    by (simpl; now rewrite (appendAttrs_filter _ _ _ _ B)).
  split; [exact Hf|]. split.
  - intros -> v Hin.
    pose proof (line_development level h r B) as Hno.
    unfold has_key in Hno.
    assert (Hyes : existsb (fun a => (Key a =? "time")%string)
                     (fields (Handle h r)) = true)
      by (apply existsb_exists; eexists; split; [exact Hin|reflexivity]).
    congruence.
  - intros Hne a Hin Hnz. rewrite Hf.
    apply in_or_app. right. apply in_or_app. right.
    apply filter_In. split; [exact Hin|]. unfold kept.
    apply String.eqb_neq in Hne. now rewrite Hne, Hnz.
Qed.

Lemma development_drops_witness :
  fields (Handle (New_handler "development" LevelInfo)
            {| rTime := 1000; rLevel := LevelError; rMessage := "late";
               rAttrs := [String "time" "12:00"; String "file" "a.png"] |}) =
  [Any_level "level" LevelError; String "msg" "late"; String "file" "a.png"].
Proof.
  destruct (development_drops_attributes_keyed_time "development" LevelInfo
              (New_handler "development" LevelInfo)
              {| rTime := 1000; rLevel := LevelError; rMessage := "late";
                 rAttrs := [String "time" "12:00"; String "file" "a.png"] |}
              (built_New "development" LevelInfo)) as (Hf & _).
  exact Hf.
Defined.

(** X4: deriving a request's logger twice, the second time from the first
    one's context and logger, leaves the context answering with the second
    identifier, while the logger binds both [request_id] attributes, the
    first before the second; every other key of the caller's context reads
    as before. *)
Theorem second_request_id_shadows_but_both_are_bound env level l h w ctx :
  heap w !! l = Some h -> built env level h ->
  exists ctx1 l1 w1 ctx2 l2 w2 h2,
    WithRequestID l ctx w = Returned (ctx1, l1) w1 /\
    WithRequestID l1 ctx1 w1 = Returned (ctx2, l2) w2 /\
    heap w2 !! l2 = Some h2 /\
    GetRequestID ctx1 = uuids w (uuid_calls w) /\
    GetRequestID ctx2 = uuids w (S (uuid_calls w)) /\
    preformattedAttrs h2 =
      preformattedAttrs h ++
      [String "request_id" (GetRequestID ctx1);
       String "request_id" (GetRequestID ctx2)] /\
    (forall k, k <> RequestIDKey ->
               context.Value ctx2 k = context.Value ctx k).
Proof.
  intros E B.
  set (d := by_RequestID ctx).
  set (w1 := after_derive h d w). set (h1 := derived h d w).
  set (ctx1 := WithValue ctx RequestIDKey (string_any (uuids w (uuid_calls w)))).
  set (d1 := by_RequestID ctx1).
  assert (E1 : heap w1 !! length (heap w) = Some h1)
    by apply lookup_after_derive_new.
  assert (B1 : built env level h1) by (subst h1; auto with logger).
  exists ctx1, (length (heap w)), w1,
    (WithValue ctx1 RequestIDKey (string_any (uuids w1 (uuid_calls w1)))),
    (length (heap w1)), (after_derive h1 d1 w1), (derived h1 d1 w1).
  split; [exact (WithRequestID_run l ctx w h E)|].
  split; [exact (WithRequestID_run _ ctx1 w1 h1 E1)|].
  split; [apply lookup_after_derive_new|].
  rewrite !GetRequestID_WithValue.
  split; [reflexivity|]. split; [reflexivity|]. split.
  - rewrite (derived_preformatted _ _ _ d1 w1 B1). unfold h1.
    rewrite (derived_preformatted _ _ _ d w B), <- app_assoc.
    reflexivity.
  - intros k Hk. cbn [context.Value].
    rewrite decide_False by congruence. subst ctx1. cbn [context.Value].
    now rewrite decide_False by congruence.
Qed.

Lemma second_request_id_witness :
  exists ctx1 l1 w1 ctx2 l2 w2 h2,
    WithRequestID 0%nat Background (sample.started "production" LevelInfo)
      = Returned (ctx1, l1) w1 /\
    WithRequestID l1 ctx1 w1 = Returned (ctx2, l2) w2 /\
    heap w2 !! l2 = Some h2 /\
    GetRequestID ctx2 = "6ba7b811-9dad-11d1-80b4-00c04fd430c8" /\
    preformattedAttrs h2 =
      [String "request_id" "6ba7b810-9dad-11d1-80b4-00c04fd430c8";
       String "request_id" "6ba7b811-9dad-11d1-80b4-00c04fd430c8"].
Proof.
  destruct (second_request_id_shadows_but_both_are_bound
              "production" LevelInfo 0%nat
              (New_handler "production" LevelInfo)
              (sample.started "production" LevelInfo) Background
              eq_refl (built_New "production" LevelInfo))
    as (ctx1 & l1 & w1 & ctx2 & l2 & w2 & h2 &
        H1 & H2 & H3 & H4 & H5 & H6 & _).
  exists ctx1, l1, w1, ctx2, l2, w2, h2.
  rewrite H4, H5 in H6. repeat split; assumption.
Defined.

(** X5: through a [*Logger] that is nil (or holds no logger) every call
    panics: the emitters and the derivations alike, having written nothing
    and allocated nothing.  [Fatal] in particular panics instead of
    exiting. *)
Theorem calls_on_a_nil_logger_panic l w :
  heap w !! l = None ->
  (forall c, exists w',
     run_call l c w = Panicked w' /\
     stdout w' = stdout w /\ heap w' = heap w) /\
  (forall d, exists w',
     derive l d w = Panicked w' /\
     stdout w' = stdout w /\ heap w' = heap w).
Proof.
  intros E. split.
  - intros [msg err attrs|msg err attrs|start name attrs|ctx level msg attrs];
      simpl run_call.
    + exists w. now rewrite (Error_nil_deref l w E).
    + exists w. now rewrite Fatal_run, (Error_nil_deref l w E).
    + exists (set_clock_reads w (S (clock_reads w))).
      rewrite TimeTrack_run. now rewrite LogAttrs_nil_deref.
    + exists w. now rewrite (LogAttrs_nil_deref l w E).
  - intros [name|name|ctx]; simpl derive.
    + exists w. unfold WithComponent. now step.
    + exists w. unfold WithOperation. now step.
    + exists (set_uuid_calls w (S (uuid_calls w))).
      unfold WithRequestID, uuid.New_String, load, mbind, M_bind. simpl.
      now rewrite E.
Qed.

Lemma calls_on_a_nil_logger_witness :
  (exists w',
     Fatal 0%nat "no database" (Some "dial tcp: refused") [] sample.w0
       = Panicked w' /\ stdout w' = []) /\
  (exists w',
     WithComponent 0%nat "uploader" sample.w0 = Panicked w' /\
     heap w' = []).
Proof.
  destruct (calls_on_a_nil_logger_panic 0%nat sample.w0 eq_refl)
    as [Hcall Hderive].
  split.
  - destruct (Hcall (call_Fatal "no database" (Some "dial tcp: refused") []))
      as (w' & Hrun & Hout & _).
    exists w'. split; assumption.
  - destruct (Hderive (by_Component "uploader")) as (w' & Hrun & _ & Hheap).
    exists w'. split; assumption.
Defined.

(** X6: two loggers derived from the same logger do not see each other's
    attribute: each binds the parent's attributes and its own, they are two
    distinct loggers, and the parent is as it was. *)
Theorem siblings_do_not_share_attributes env level l h w component operation :
  heap w !! l = Some h -> built env level h ->
  exists la lb w' ha hb,
    (a ← WithComponent l component;
     b ← WithOperation l operation;
     mret (a, b)) w = Returned (la, lb) w' /\
    la <> lb /\
    heap w' !! la = Some ha /\ heap w' !! lb = Some hb /\
    heap w' !! l = Some h /\
    preformattedAttrs ha =
      preformattedAttrs h ++ [String "component" component] /\
    preformattedAttrs hb =
      preformattedAttrs h ++ [String "operation" operation].
Proof.
  intros E B.
  set (dc := by_Component component). set (do := by_Operation operation).
  set (wa := after_derive h dc w).
  assert (Ea : heap wa !! l = Some h) by (subst wa; auto with logger).
  exists (length (heap w)), (length (heap wa)), (after_derive h do wa),
         (derived h dc w), (derived h do wa).
  split.
  { rewrite (bind_Returned _ _ _ _ _ (derive_run l dc w h E)).
    now rewrite (bind_Returned _ _ _ _ _ (derive_run l do wa h Ea)). }
  split.
  { subst wa. simpl. rewrite length_app. simpl. lia. }
  split.
  { apply lookup_after_derive_old. apply lookup_after_derive_new. }
  split; [apply lookup_after_derive_new|].
  split; [auto with logger|].
  split.
  - apply (derived_preformatted _ _ _ dc w B).
  - apply (derived_preformatted _ _ _ do wa B).
Qed.

Lemma siblings_witness :
  exists la lb w' ha hb,
    (a ← WithComponent 0%nat "uploader";
     b ← WithOperation 0%nat "resize";
     mret (a, b)) (sample.started "production" LevelInfo)
      = Returned (la, lb) w' /\
    la <> lb /\
    heap w' !! la = Some ha /\ heap w' !! lb = Some hb /\
    preformattedAttrs ha = [String "component" "uploader"] /\
    preformattedAttrs hb = [String "operation" "resize"].
Proof.
  destruct (siblings_do_not_share_attributes "production" LevelInfo 0%nat
              (New_handler "production" LevelInfo)
              (sample.started "production" LevelInfo) "uploader" "resize"
              eq_refl (built_New "production" LevelInfo))
    as (la & lb & w' & ha & hb & H1 & H2 & H3 & H4 & _ & H6 & H7).
  exists la, lb, w', ha, hb. repeat split; assumption.
Defined.

Lemma LogAttrs_frame l h ctx level msg attrs w :
  heap w !! l = Some h ->
  heap (final_world (slog_Logger.LogAttrs l ctx level msg attrs w)) = heap w /\
  uuid_calls (final_world (slog_Logger.LogAttrs l ctx level msg attrs w))
    = uuid_calls w.
Proof.
  intros E. rewrite (LogAttrs_run l h _ _ _ _ w E).
  now destruct (enabled h ctx level).
Qed.

(** X7: on a live logger, no emitting call allocates a logger or draws an
    identifier, and no derivation writes a line, reads the clock or
    captures a stack: a derivation only adds one logger to the heap. *)
Theorem emitters_do_not_allocate_and_derivations_do_not_write l h w :
  heap w !! l = Some h ->
  (forall c,
     heap (final_world (run_call l c w)) = heap w /\
     uuid_calls (final_world (run_call l c w)) = uuid_calls w) /\
  (forall d,
     stdout (final_world (derive l d w)) = stdout w /\
     clock_reads (final_world (derive l d w)) = clock_reads w /\
     stack_calls (final_world (derive l d w)) = stack_calls w /\
     length (heap (final_world (derive l d w))) = S (length (heap w))).
Proof.
  intros E. split.
  - assert (HE : forall msg err attrs,
      heap (final_world (Error l msg err attrs w)) = heap w /\
      uuid_calls (final_world (Error l msg err attrs w)) = uuid_calls w).
    { intros msg err attrs. rewrite (Error_run l h w E).
      destruct (LogAttrs_frame l h Background LevelError msg
                  (attrs ++ appended h err w) (after_capture h err w))
        as [Hh Hu]; [now rewrite heap_after_capture|].
      rewrite Hh, Hu, heap_after_capture. split; [reflexivity|].
      unfold after_capture. destruct err; [|reflexivity].
      now destruct (enabled h Background LevelDebug). }
    intros [msg err attrs|msg err attrs|start name attrs|ctx level msg attrs];
      simpl run_call.
    + apply HE.
    + rewrite Fatal_run. destruct (Error_returns l h w E msg err attrs)
        as [w' Hw']. specialize (HE msg err attrs). rewrite Hw' in *.
      exact HE.
    + rewrite TimeTrack_run.
      now destruct (LogAttrs_frame l h Background LevelDebug
                      (name +:+ " completed")
                      (attrs ++ [Duration_attr "duration"
                                   (time.Sub (clock w (clock_reads w)) start)])
                      (set_clock_reads w (S (clock_reads w))) E).
    + now apply LogAttrs_frame with h.
  - intros d. rewrite (derive_run l d w h E). simpl.
    rewrite length_app. simpl. repeat split. lia.
Qed.

Lemma emitters_frame_witness :
  heap (final_world
          (run_call 0%nat (call_Error "boom" (Some "x") [])
             (sample.started "development" LevelDebug)))
    = [New_handler "development" LevelDebug] /\
  stdout (final_world
            (derive 0%nat (by_Component "uploader")
               (sample.started "development" LevelDebug))) = [].
Proof.
  destruct (emitters_do_not_allocate_and_derivations_do_not_write 0%nat
              (New_handler "development" LevelDebug)
              (sample.started "development" LevelDebug) eq_refl)
    as [Hcall Hderive].
  split.
  - apply (Hcall (call_Error "boom" (Some "x") [])).
  - apply (Hderive (by_Component "uploader")).
Defined.

End logger_more.

(** ** The package [config] *)

Section config_facts.
Import strings strconv numeral config.

Lemma parseInt_int_of s : parseInt s = int_of s.
Proof.
  rewrite <- or_zero_Atoi. unfold parseInt, or_zero.
  now destruct (Atoi s) as [i [e|]].
Qed.

Lemma parseInt64_int_of s : parseInt64 s = int_of s.
Proof.
  rewrite <- or_zero_ParseInt. unfold parseInt64, or_zero.
  now destruct (ParseInt s) as [i [e|]].
Qed.

(** X8: [parseInt] and [parseInt64] give the integer their argument writes
    in decimal (an optional sign, then digits and nothing else) when it fits
    64 bits, and [0] in every other case; so the two agree on every string,
    and neither tells a malformed number from ["0"]. *)
Theorem parseInt_reads_decimal s :
  parseInt s = int_of s /\ parseInt64 s = int_of s.
Proof.
  split.
  - rewrite <- or_zero_Atoi. unfold parseInt, or_zero.
    now destruct (Atoi s) as [i [e|]].
  - rewrite <- or_zero_ParseInt. unfold parseInt64, or_zero.
    now destruct (ParseInt s) as [i [e|]].
Qed.

Lemma digits_value_stray c s : forall n,
  In c (list_ascii_of_string s) -> is_digit c = false ->
  digits_value s n = None.
Proof.
  induction s as [|c0 s IH]; intros n Hin Hd; [destruct Hin|].
  cbn [digits_value]. destruct Hin as [->|Hin]; [now rewrite Hd|].
  destruct (is_digit c0); [now apply IH|reflexivity].
Qed.

Lemma decimal_stray c s :
  In c (list_ascii_of_string s) -> is_digit c = false ->
  c <> "-"%char -> c <> "+"%char -> decimal s = None.
Proof.
  intros Hin Hd Hm Hp. destruct s as [|c0 rest]; [destruct Hin|].
  unfold decimal.
  destruct (Ascii.eqb c0 "-") eqn:E0.
  - apply Ascii.eqb_eq in E0. subst c0.
    destruct Hin as [<-|Hin]; [congruence|].
    destruct rest as [|c1 rest]; [reflexivity|].
    now rewrite (digits_value_stray c _ 0 Hin Hd).
  - destruct (Ascii.eqb c0 "+") eqn:E1.
    + apply Ascii.eqb_eq in E1. subst c0.
      destruct Hin as [<-|Hin]; [congruence|].
      destruct rest as [|c1 rest]; [reflexivity|].
      now rewrite (digits_value_stray c _ 0 Hin Hd).
    + now apply (digits_value_stray c).
Qed.

(** X9: a string with a byte that is neither a digit nor a sign (an
    underscore, a space, a letter, a point) is read as [0] by [parseInt] and
    by [parseInt64]. *)
Theorem parseInt_stray_byte_gives_zero c s :
  In c (list_ascii_of_string s) -> is_digit c = false ->
  c <> "-"%char -> c <> "+"%char ->
  parseInt s = 0 /\ parseInt64 s = 0.
Proof.
  intros Hin Hd Hm Hp. rewrite parseInt_int_of, parseInt64_int_of.
  unfold int_of. now rewrite (decimal_stray c s Hin Hd Hm Hp).
Qed.

Lemma parseInt_stray_byte_witness :
  parseInt "10_485_760" = 0 /\ parseInt64 "10_485_760" = 0.
Proof.
  apply (parseInt_stray_byte_gives_zero "_").
  - simpl. tauto.
  - reflexivity.
  - discriminate.
  - discriminate.
Defined.

(** X10: what [%d] writes for an [int], [parseInt] and [parseInt64] read
    back: the port [GetDSN] prints is the port that was parsed. *)
Theorem parseInt_reads_back_what_fmt_writes z :
  - 2 ^ 63 <= z < 2 ^ 63 ->
  parseInt (fmt.d z) = z /\ parseInt64 (fmt.d z) = z.
Proof.
  intros Hz. rewrite parseInt_int_of, parseInt64_int_of.
  unfold int_of. rewrite decimal_fmt_d. unfold in_int64.
  destruct (Z.leb_spec (- 2 ^ 63) z); [|lia].
  destruct (Z.ltb_spec z (2 ^ 63)); [|lia]. now split.
Qed.

Lemma parseInt_reads_back_witness :
  parseInt (fmt.d (-5432)) = -5432 /\ parseInt64 (fmt.d (-5432)) = -5432.
Proof.
  apply (parseInt_reads_back_what_fmt_writes (-5432)).
  change (2 ^ 63) with 9223372036854775808. lia.
Defined.

Lemma validate_as_filter c :
  validate c =
  match missing_messages c with
  | [] => None
  | _ => Some ("missing required environment variables "
               +:+ Join (missing_messages c) ", ")
  end.
Proof.
  unfold validate, missing_messages, required. cbn [List.filter fst].
  destruct (Host (Database c) =? "")%string;
    destruct (User (Database c) =? "")%string;
    destruct (Password (Database c) =? "")%string;
    destruct (DBName (Database c) =? "")%string;
    destruct (Region (AWS c) =? "")%string;
    destruct (S3Bucket (AWS c) =? "")%string; reflexivity.
Qed.

Lemma filter_nil_Forall {A B} (P : A -> bool) (f : A -> B) (l : list A) :
  f <$> List.filter P l = [] <-> Forall (fun x => P x = false) l.
Proof.
  induction l as [|x l IH]; cbn [List.filter].
  - split; [constructor|reflexivity].
  - rewrite Forall_cons. destruct (P x) eqn:HP.
    + split; [discriminate|intros [? _]; discriminate].
    + rewrite IH. tauto.
Qed.

Lemma validate_None_iff c :
  validate c = None <->
  Forall (fun fm : string * string => fst fm <> "") (required c).
Proof.
  rewrite validate_as_filter.
  assert (Hnil : missing_messages c = [] <->
                 Forall (fun fm : string * string => fst fm <> "")
                        (required c)).
  { unfold missing_messages. rewrite filter_nil_Forall.
    apply Forall_proper; [|reflexivity].
    intros fm. apply String.eqb_neq. }
  rewrite <- Hnil. destruct (missing_messages c); [tauto|].
  split; discriminate.
Qed.

(** X11: [validate] accepts a configuration exactly when the six required
    fields are all non-empty (the keys and the base URL are not among them).
    When it refuses, its message names every empty required field, not only
    the first, in the fixed order of the tests, separated by commas. *)
Theorem validate_reports_every_missing_field c :
  (validate c = None <->
   Forall (fun fm : string * string => fst fm <> "") (required c)) /\
  (forall msg, validate c = Some msg ->
     missing_messages c <> [] /\
     msg = "missing required environment variables "
           +:+ Join (missing_messages c) ", ").
Proof.
  rewrite validate_as_filter. split.
  - assert (Hnil : missing_messages c = [] <->
                   Forall (fun fm : string * string => fst fm <> "")
                          (required c)).
    { unfold missing_messages. rewrite filter_nil_Forall.
      apply Forall_proper; [|reflexivity].
      intros fm. apply String.eqb_neq. }
    rewrite <- Hnil. destruct (missing_messages c); [tauto|].
    split; discriminate.
  - intros msg. destruct (missing_messages c) eqn:Hm; [discriminate|].
    intros [= <-]. split; [discriminate|reflexivity].
Qed.

Lemma getEnv_nonempty (environ : Environ) key defaultValue :
  defaultValue <> "" ->
  (getEnv environ key defaultValue <> "" <-> environ !! key <> Some "").
Proof.
  intros Hd. unfold getEnv. destruct (environ !! key) as [v|].
  - split; congruence.
  - split; [discriminate|now intros _].
Qed.

Lemma getEnv_nonempty_no_default (environ : Environ) key :
  getEnv environ key "" <> "" <->
  exists value, environ !! key = Some value /\ value <> "".
Proof.
  unfold getEnv. destruct (environ !! key) as [v|].
  - split; [eauto|]. now intros (value & [= ->] & Hne).
  - split; [congruence|]. now intros (value & ? & _).
Qed.

End config_facts.

Section config_load.
Import strings strconv numeral config.

Variable unicode_lower : string -> string.
Variable ParseDuration : string -> slog.Duration * option string.
Variable godotenv_Load : Environ -> Environ * option string.

(** The configuration [Load] validates, from the environment as
    [godotenv.Load] left it. *)
Lemma Load_validates environ :
  exists cfg,
    snd (Load unicode_lower ParseDuration godotenv_Load environ) =
      match validate cfg with
      | Some err => (None, Some ("config validation failed: " +:+ err))
      | None => (Some cfg, None)
      end /\
    required cfg =
      (let e := fst (godotenv_Load environ) in
       [ (getEnv e "DB_HOST" "localhost", "DB_HOST is required");
         (getEnv e "DB_USER" "postgres", "DB_USER is required");
         (getEnv e "DB_PASSWORD" "postgres", "DB_Password is required");
         (getEnv e "DB_NAME" "fileupload", "DB_NAME is required");
         (getEnv e "AWS_REGION" "us-east-1", "AWS_REGION is required");
         (getEnv e "S3_BUCKET" "", "S3_BUCKET is required") ]) /\
    DBPort (Database cfg) =
      parseInt (getEnv (fst (godotenv_Load environ)) "DB_PORT" "5432") /\
    MaxConns (Database cfg) =
      int32 (parseInt (getEnv (fst (godotenv_Load environ)) "DB_MAX_CONNS" "10")) /\
    MaxFileSize (App cfg) =
      parseInt64 (getEnv (fst (godotenv_Load environ))
                         "MAX_FILE_SIZE" "10_485_760") /\
    Environment (Server cfg) =
      getEnv (fst (godotenv_Load environ)) "ENVIRONMENT" "development" /\
    LogLevel (Server cfg) =
      parseLogLevel unicode_lower
        (getEnv (fst (godotenv_Load environ)) "LOG_LEVEL" "info").
Proof.
  unfold Load. destruct (godotenv_Load environ) as [e err]. cbn [fst].
  match goal with |- context [validate ?c] => exists c end.
  split; [now destruct (validate _)|]. now repeat split.
Qed.

(** X12: [Load] returns a configuration exactly when, in the environment
    as [godotenv.Load] left it, [S3_BUCKET] is set to a non-empty value and
    none of [DB_HOST], [DB_USER], [DB_PASSWORD], [DB_NAME], [AWS_REGION] is
    set to the empty string (unset, each has a default; set but empty, the
    empty value wins over the default).  Otherwise it returns no
    configuration and an error that starts with
    ["config validation failed: "].  A missing [.env] file or a malformed
    number or duration is never a reason to fail. *)
Theorem Load_succeeds_iff environ :
  ((exists cfg,
      snd (Load unicode_lower ParseDuration godotenv_Load environ)
        = (Some cfg, None)) <->
   (exists bucket,
      fst (godotenv_Load environ) !! "S3_BUCKET" = Some bucket /\
      bucket <> "") /\
   Forall (fun key => fst (godotenv_Load environ) !! key <> Some "")
     ["DB_HOST"; "DB_USER"; "DB_PASSWORD"; "DB_NAME"; "AWS_REGION"]) /\
  ((exists cfg,
      snd (Load unicode_lower ParseDuration godotenv_Load environ)
        = (Some cfg, None)) \/
   (exists msg,
      snd (Load unicode_lower ParseDuration godotenv_Load environ)
        = (None, Some ("config validation failed: " +:+ msg)))).
Proof.
  destruct (Load_validates environ) as (cfg & Hload & Hreq & _).
  pose proof (validate_None_iff cfg) as Hok.
  rewrite Hreq in Hok. cbv zeta in Hok.
  rewrite !Forall_cons, Forall_nil in Hok. cbn [fst] in Hok.
  rewrite !getEnv_nonempty in Hok by discriminate.
  rewrite getEnv_nonempty_no_default in Hok.
  rewrite !Forall_cons, Forall_nil. rewrite Hload.
  destruct (validate cfg) as [err|].
  - split; [|right; eauto].
    split; [intros (c & [=])|]. intros Hcond.
    assert (@None string = None) by reflexivity.
    assert (Some err = None) by (apply Hok; tauto). discriminate.
  - split; [|left; eauto].
    split; [intros _|eauto].
    destruct Hok as [Hok _]. specialize (Hok eq_refl). tauto.
Qed.

(** X13: the numbers of a configuration [Load] returns are read without
    ever failing: the port is the integer [DB_PORT] writes, and [0] when it
    writes none; the pool size is cut to 32 bits.  Unset, [DB_PORT] loads as
    [5432] and [DB_MAX_CONNS] as [10], but [MAX_FILE_SIZE] loads as [0]: its
    default text, ["10_485_760"], is no decimal numeral. *)
Theorem Load_reads_numbers_without_failing environ cfg :
  snd (Load unicode_lower ParseDuration godotenv_Load environ)
    = (Some cfg, None) ->
  let e := fst (godotenv_Load environ) in
  DBPort (Database cfg) = int_of (getEnv e "DB_PORT" "5432") /\
  MaxFileSize (App cfg) = int_of (getEnv e "MAX_FILE_SIZE" "10_485_760") /\
  - 2 ^ 31 <= MaxConns (Database cfg) < 2 ^ 31 /\
  (forall text, e !! "DB_PORT" = Some text -> decimal text = None ->
                DBPort (Database cfg) = 0) /\
  (e !! "DB_PORT" = None -> DBPort (Database cfg) = 5432) /\
  (e !! "DB_MAX_CONNS" = None -> MaxConns (Database cfg) = 10) /\
  (e !! "MAX_FILE_SIZE" = None -> MaxFileSize (App cfg) = 0).
Proof.
  intros Hload e.
  destruct (Load_validates environ)
    as (cfg' & Hload' & _ & Hport & Hconns & Hsize & _).
  rewrite Hload in Hload'.
  assert (cfg' = cfg) as ->
    by (destruct (validate cfg'); [discriminate|congruence]).
  fold e in Hport, Hconns, Hsize.
  rewrite Hport, Hconns, Hsize.
  rewrite !parseInt_int_of, parseInt64_int_of.
  split; [reflexivity|]. split; [reflexivity|]. split.
  { unfold int32. change (2 ^ 32) with 4294967296.
    change (2 ^ 31) with 2147483648.
    match goal with
    | |- context [?a mod 4294967296] =>
        pose proof (Z.mod_pos_bound a 4294967296 ltac:(lia))
    end. lia. }
  unfold getEnv. split; [|split; [|split]].
  - intros text -> Hnone. unfold int_of. now rewrite Hnone.
  - now intros ->.
  - intros ->. reflexivity.
  - now intros ->.
Qed.

End config_load.

Lemma Load_reads_numbers_witness :
  exists cfg,
    snd (config.Load id sample_env.seconds_only sample_env.no_dotenv
           sample_env.bucket_only) = (Some cfg, None) /\
    config.DBPort (config.Database cfg) = 0 /\
    config.MaxConns (config.Database cfg) = 10 /\
    config.MaxFileSize (config.App cfg) = 0.
Proof.
  eexists. split; [reflexivity|].
  destruct (Load_reads_numbers_without_failing id sample_env.seconds_only
              sample_env.no_dotenv sample_env.bucket_only _ eq_refl)
    as (_ & _ & _ & Hport & _ & Hconns & Hsize).
  split; [|split].
  - apply (Hport "54 32"); reflexivity.
  - apply Hconns. reflexivity.
  - apply Hsize. reflexivity.
Defined.

(** ** [config] and [logger] together *)

Section config_and_logger.
Import context slog logger config.

Lemma parseLogLevel_Debug unicode_lower text :
  parseLogLevel unicode_lower text = LevelDebug <->
  strings.ToLower unicode_lower text = "debug".
Proof.
  unfold parseLogLevel.
  destruct (String.eqb_spec (strings.ToLower unicode_lower text) "debug")
    as [->|Hne]; [tauto|].
  split; [|tauto].
  repeat match goal with
         | |- context [if ?b then _ else _] => destruct b
         end; discriminate.
Qed.

Lemma parseLogLevel_at_most_Error unicode_lower text :
  parseLogLevel unicode_lower text <= LevelError.
Proof.
  unfold parseLogLevel.
  repeat match goal with
         | |- context [if ?b then _ else _] => destruct b
         end; unfold LevelDebug, LevelInfo, LevelWarn, LevelError; lia.
Qed.

(** X14: a logger built with the level [parseLogLevel] reads from any text
    never filters out an [Error]: the call writes exactly one line, at error
    level.  It captures the stack exactly when [err] is not nil and the text,
    lowered, is ["debug"]; with any other text, unknown ones included, no
    stack is captured. *)
Theorem configured_logger_always_reports_errors
    unicode_lower text env l h w msg err attrs :
  heap w !! l = Some h ->
  built env (parseLogLevel unicode_lower text) h ->
  exists w' r,
    Error l msg err attrs w = Returned tt w' /\
    stdout w' = stdout w ++ [Handle h r] /\
    rLevel r = LevelError /\ rMessage r = msg /\
    (stack_calls w' = S (stack_calls w) <->
     err <> None /\ strings.ToLower unicode_lower text = "debug").
Proof.
  intros E B.
  pose proof (built_level _ _ _ B) as Hlevel.
  pose proof (parseLogLevel_at_most_Error unicode_lower text) as Hle.
  assert (Hon : enabled h Background LevelError = true)
    by (unfold enabled; rewrite Hlevel; now apply Z.leb_le).
  rewrite (Error_world l h w msg err attrs E), Hon.
  destruct (after_capture_io h err w) as (Hout & Hclock & Hreads).
  eexists. eexists. split; [reflexivity|].
  split; [unfold logged; cbn [stdout]; rewrite Hout; reflexivity|].
  split; [reflexivity|]. split; [reflexivity|].
  change (stack_calls (logged h LevelError msg (attrs ++ appended h err w)
                         (after_capture h err w)))
    with (stack_calls (after_capture h err w)).
  rewrite stack_calls_after_capture, Hlevel.
  split; intros [Herr Hdebug]; (split; [exact Herr|]).
  - apply parseLogLevel_Debug. unfold LevelDebug in *.
    pose proof (parseLogLevel_at_most_Error unicode_lower text).
    unfold parseLogLevel in *.
    repeat match goal with
           | |- context [if ?b then _ else _] => destruct b
           | H : context [if ?b then _ else _] |- _ => destruct b
           end; unfold LevelDebug, LevelInfo, LevelWarn, LevelError in *;
      try reflexivity; lia.
  - apply parseLogLevel_Debug in Hdebug. rewrite Hdebug. reflexivity.
Qed.

Lemma configured_logger_witness :
  exists w' r,
    Error 0%nat "upload failed" (Some "disk full") []
      (sample.started "production" (parseLogLevel id "verbose"))
      = Returned tt w' /\
    stdout w' =
      [Handle (New_handler "production" (parseLogLevel id "verbose")) r] /\
    rLevel r = LevelError /\
    (stack_calls w' = 1%nat <->
     Some "disk full" <> None /\ strings.ToLower id "verbose" = "debug").
Proof.
  destruct (configured_logger_always_reports_errors id "verbose" "production"
              0%nat (New_handler "production" (parseLogLevel id "verbose"))
              (sample.started "production" (parseLogLevel id "verbose"))
              "upload failed" (Some "disk full") []
              eq_refl (built_New _ _))
    as (w' & r & Hrun & Hout & Hlevel & _ & Hiff).
  exists w', r. split; [exact Hrun|]. split; [exact Hout|].
  split; [exact Hlevel|exact Hiff].
Defined.

Lemma append_assoc (a b c : string) : (a +:+ b) +:+ c = a +:+ (b +:+ c).
Proof.
  induction a as [|x a IH]; [reflexivity|].
  change (String.String x ((a +:+ b) +:+ c)
          = String.String x (a +:+ (b +:+ c))).
  now rewrite IH.
Qed.

End config_and_logger.

(** ** The data source name *)

Section config_dsn.
Import strings numeral config.

Lemma length_append (a b : string) :
  String.length (a +:+ b) = (String.length a + String.length b)%nat.
Proof.
  induction a as [|x a IH]; [reflexivity|].
  change (S (String.length (a +:+ b))
          = S (String.length a + String.length b)).
  now rewrite IH.
Qed.

Lemma append_cancel_l (a x y : string) : a +:+ x = a +:+ y -> x = y.
Proof.
  induction a as [|c a IH]; [trivial|].
  change (String c (a +:+ x) = String c (a +:+ y) -> x = y).
  intros [= H]. now apply IH.
Qed.

Lemma append_cancel_r (x : string) : forall y s,
  x +:+ s = y +:+ s -> x = y.
Proof.
  induction x as [|c x IH]; intros [|c' y] s H.
  - reflexivity.
  - apply (f_equal String.length) in H. rewrite !length_append in H.
    cbn in H. lia.
  - apply (f_equal String.length) in H. rewrite !length_append in H.
    cbn in H. lia.
  - change (String c (x +:+ s) = String c' (y +:+ s)) in H.
    injection H as -> H. f_equal. now apply IH with s.
Qed.

(** Two texts free of byte [b], each followed by [b], end at the same
    place. *)
Lemma split_at_byte b (a : string) : forall a' r r',
  ~ has_byte b a -> ~ has_byte b a' ->
  a +:+ String b r = a' +:+ String b r' -> a = a' /\ r = r'.
Proof.
  unfold has_byte.
  induction a as [|c a IH]; intros [|c' a'] r r' Ha Ha' H.
  - change (String b r = String b r') in H. now injection H.
  - change (String b r = String c' (a' +:+ String b r')) in H.
    injection H as -> _. exfalso. apply Ha'. now left.
  - change (String c (a +:+ String b r) = String b r') in H.
    injection H as -> _. exfalso. apply Ha. now left.
  - change (String c (a +:+ String b r) = String c' (a' +:+ String b r'))
      in H.
    injection H as -> H.
    destruct (IH a' r r') as [-> ->]; [| |exact H|now split].
    + intros Hin. apply Ha. now right.
    + intros Hin. apply Ha'. now right.
Qed.

Lemma digits_value_all_digits s : forall n v b,
  digits_value s n = Some v -> has_byte b s -> is_digit b = true.
Proof.
  unfold has_byte.
  induction s as [|c s IH]; intros n v b Hv Hin; [destruct Hin|].
  cbn [digits_value] in Hv. destruct (is_digit c) eqn:Hd; [|discriminate].
  destruct Hin as [<-|Hin]; [exact Hd|]. now apply (IH _ _ _ Hv).
Qed.

(** What [%d] writes holds digits and at most a minus sign. *)
Lemma fmt_d_bytes z b :
  has_byte b (fmt.d z) -> is_digit b = true \/ b = "-"%char.
Proof.
  unfold fmt.d.
  pose proof (digits_of_value (Z.abs z) (Z.abs_nonneg z)) as Hv.
  destruct (z <? 0).
  - intros [<-|Hin]; [now right|]. left.
    now apply (digits_value_all_digits _ _ _ _ Hv).
  - intros Hin. left. now apply (digits_value_all_digits _ _ _ _ Hv).
Qed.

Lemma fmt_d_inj z z' : fmt.d z = fmt.d z' -> z = z'.
Proof.
  intros H. pose proof (decimal_fmt_d z) as Hz.
  rewrite H, decimal_fmt_d in Hz. congruence.
Qed.

(** X15: [GetDSN] writes the values as they are, between fixed separators:
    the scheme, the user, a colon, the password, an at-sign, the host, a
    colon, the port in decimal, a slash, the database name and the suffix.
    Nothing is escaped, so a separator inside a value reads as one: two
    different configurations, one with the text after a colon in the user
    and the other with it in the password (or after an at-sign, in the
    password and in the host), have the same URL.  Separators in the values
    are the only source of this: when no user and no host holds a colon and
    no password an at-sign, equal URLs mean equal user, password, host, port
    and database name. *)
Theorem GetDSN_does_not_escape c user password host extra :
  GetDSN (with_login c user password host) =
    "postgres://" +:+ user +:+ ":" +:+ password +:+ "@" +:+ host +:+ ":"
    +:+ fmt.d (DBPort (Database c)) +:+ "/" +:+ DBName (Database c)
    +:+ "?sslmode=disable" /\
  (with_login c (user +:+ ":" +:+ extra) password host <>
   with_login c user (extra +:+ ":" +:+ password) host /\
   GetDSN (with_login c (user +:+ ":" +:+ extra) password host) =
   GetDSN (with_login c user (extra +:+ ":" +:+ password) host)) /\
  (with_login c user (password +:+ "@" +:+ extra) host <>
   with_login c user password (extra +:+ "@" +:+ host) /\
   GetDSN (with_login c user (password +:+ "@" +:+ extra) host) =
   GetDSN (with_login c user password (extra +:+ "@" +:+ host))) /\
  (forall c',
     GetDSN c = GetDSN c' ->
     ~ has_byte ":" (User (Database c)) ->
     ~ has_byte ":" (User (Database c')) ->
     ~ has_byte "@" (Password (Database c)) ->
     ~ has_byte "@" (Password (Database c')) ->
     ~ has_byte ":" (Host (Database c)) ->
     ~ has_byte ":" (Host (Database c')) ->
     User (Database c) = User (Database c') /\
     Password (Database c) = Password (Database c') /\
     Host (Database c) = Host (Database c') /\
     DBPort (Database c) = DBPort (Database c') /\
     DBName (Database c) = DBName (Database c')).
Proof.
  split; [reflexivity|]. split; [|split].
  - split.
    + intros Heq.
      apply (f_equal (fun x => String.length (User (Database x)))) in Heq.
      unfold with_login in Heq. cbn [Database User] in Heq.
      rewrite !length_append in Heq. cbn [String.length] in Heq. lia.
    + unfold GetDSN, with_login.
      cbn [Database User Password Host DBPort DBName].
      now rewrite !append_assoc.
  - split.
    + intros Heq.
      apply (f_equal (fun x => String.length (Password (Database x)))) in Heq.
      unfold with_login in Heq. cbn [Database Password] in Heq.
      rewrite !length_append in Heq. cbn [String.length] in Heq. lia.
    + unfold GetDSN, with_login.
      cbn [Database User Password Host DBPort DBName].
      now rewrite !append_assoc.
  - intros c' Heq Hu Hu' Hp Hp' Hh Hh'. unfold GetDSN in Heq.
    apply append_cancel_l in Heq.
    apply (split_at_byte ":" _ _ _ _ Hu Hu') in Heq as [HU Heq].
    apply (split_at_byte "@" _ _ _ _ Hp Hp') in Heq as [HP Heq].
    apply (split_at_byte ":" _ _ _ _ Hh Hh') in Heq as [HH Heq].
    apply (split_at_byte "/") in Heq as [HD Heq].
    + apply append_cancel_r in Heq. apply fmt_d_inj in HD. now repeat split.
    + intros Hin. apply fmt_d_bytes in Hin as [Hd| Hm]; discriminate.
    + intros Hin. apply fmt_d_bytes in Hin as [Hd| Hm]; discriminate.
Qed.

Lemma GetDSN_witness :
  GetDSN (with_login sample_env.local "ann:x" "secret" "db.local") =
    "postgres://ann:x:secret@db.local:5432/fileupload?sslmode=disable" /\
  GetDSN (with_login sample_env.local "ann" "x:secret" "db.local") =
    "postgres://ann:x:secret@db.local:5432/fileupload?sslmode=disable" /\
  User (Database sample_env.local) = "postgres".
Proof.
  split; [|split].
  - exact (proj1 (GetDSN_does_not_escape sample_env.local
                    "ann:x" "secret" "db.local" "")).
  - exact (proj1 (GetDSN_does_not_escape sample_env.local
                    "ann" "x:secret" "db.local" "")).
  - destruct (GetDSN_does_not_escape sample_env.local "" "" "" "")
      as (_ & _ & _ & Hinj).
    assert (Hu : ~ has_byte ":" (User (Database sample_env.local)))
      by (unfold has_byte; simpl; intuition discriminate).
    assert (Hp : ~ has_byte "@" (Password (Database sample_env.local)))
      by (unfold has_byte; simpl; intuition discriminate).
    assert (Hh : ~ has_byte ":" (Host (Database sample_env.local)))
      by (unfold has_byte; simpl; intuition discriminate).
    destruct (Hinj sample_env.local eq_refl Hu Hu Hp Hp Hh Hh)
      as (Huser & _).
    reflexivity.
Defined.

End config_dsn.
